(** * Ritsu game-session engine: a shallow embedding and its properties

    The development follows [src/handlers/GameHandler.ts] (class
    [GameHandler]), the earlier handler [Game] (theme selection and room
    handling) and [src/utils/RitsuUtils.ts].

    Conventions of the embedding.
    - MongoDB collections are finite maps keyed by the document [_id]; a
      document is the pair of its key and its remaining fields.
    - An [async] method is a function of the world that yields an outcome
      (a returned value or a thrown fault) and the world it leaves behind:
      what was written before a [throw] stays written.
    - Operations issued without [await] ([void f()], [array.map(async ...)])
      are run to completion in program order; a fault inside them is an
      unhandled rejection and does not reach the caller. This is one of
      the schedules of the event loop: their writes may as well land after
      reads of the code that follows, and two of them on one document may
      both read before either writes. What is stated of the stores after
      such operations is stated of the time when they have landed, and of
      documents that no two of them write.
    - Reads and writes of the collections and the sending of messages
      succeed: a rejection by the database or by Discord is not modelled.
    - Messages, voice actions and error reports are appended to a
      chronological log of effects. *)

From Stdlib Require Import ZArith QArith Qround Qpower List Lia Lqa.
From stdpp Require Import gmap strings list fin_maps.

Local Open Scope string_scope.
Local Open Scope Z_scope.

(** ** Data model *)

(** [RoomLeaderboard] entity: [_id] is the user id. *)
Record RoomLeaderboardData := mkLeaderboard {
  guildId : string;
  score : Z
}.

Definition LeaderboardDocument : Type := string * RoomLeaderboardData.

(** [Room] entity: [_id] is the guild id. *)
Record RoomData := mkRoom {
  answerers : list string;
  channel : string;
  startedBy : string;
  currentRound : Z;
  isSingleplayerRoom : bool
}.

Definition RoomDocument : Type := string * RoomData.

(** [Guild] entity. *)
Record GuildData := mkGuild {
  prefix : string;
  rolling : bool
}.

Definition GuildDocument : Type := string * GuildData.

(** [User] entity. *)
Record UserData := mkUser {
  xp : Z;
  level : Z
}.

Definition UserDocument : Type := string * UserData.

Record MioSong := mkSong {
  name : string;
  link : string;
  malId : string
}.

Record GameOptions := mkOptions {
  rounds : Z;
  time : Z;
  mode : string
}.

Record Stats := mkStats {
  stats_xp : Z;
  stats_level : Z
}.

Inductive GameEmbed :=
| preparingMatch
| startingNextRound
| roundStarted (round : Z)
| answerEmbed (theme : MioSong) (animeData : string).

(** What is sent with [channel.createMessage]. *)
Inductive Content :=
| Text (s : string)
| Congrats (userId : string) (xp : Z)
| LevelUp (userId : string) (level : Z)
| Embed (e : GameEmbed).

Inductive Fault :=
| Error (message : string)
| TypeError
| Rejected (reason : string).

(** What the handler does to the outside: a message to the channel of the
    command, a voice action of the client, or an error handed to
    [handleError] (utils/GameUtils/HandleError). *)
Inductive Effect :=
| createMessage (c : Content)
| leaveVoiceChannel (channelID : option string)
| playTheme (voiceChannel : string) (stream : string)
| handleError (e : Fault).

Record World := mkWorld {
  Guilds : gmap string GuildData;
  Rooms : gmap string RoomData;
  RoomLeaderboard : gmap string RoomLeaderboardData;
  Users : gmap string UserData;
  themesCache : gmap string string;
  effects : list Effect
}.

(** The persisted part of the world: the four collections. *)
Definition persisted (w : World) :=
  (Guilds w, Rooms w, RoomLeaderboard w, Users w).

(** ** Asynchronous computations that may throw *)

Inductive Outcome (A : Type) :=
| Returned (a : A)
| Thrown (e : Fault).
Arguments Returned {A} a.
Arguments Thrown {A} e.

Definition Async (A : Type) : Type := World -> Outcome A * World.

Definition ret {A} (a : A) : Async A := fun w => (Returned a, w).
Definition throw {A} (e : Fault) : Async A := fun w => (Thrown e, w).
Definition bind {A B} (m : Async A) (k : A -> Async B) : Async B :=
  fun w => match m w with
           | (Returned a, w') => k a w'
           | (Thrown e, w') => (Thrown e, w')
           end.

Notation "'await' x <- m ; k" := (bind m (fun x => k))
  (at level 10, x pattern, m at level 100, k at level 200).
Notation "'run' m ; k" := (bind m (fun _ => k))
  (at level 10, m at level 100, k at level 200).

Definition get {A} (f : World -> A) : Async A := fun w => (Returned (f w), w).
Definition modify (f : World -> World) : Async unit := fun w => (Returned tt, f w).

(** [void m]: started and not awaited; a fault in [m] is not seen by the
    caller. *)
Definition detached (m : Async unit) : Async unit :=
  fun w => (Returned tt, snd (m w)).

Fixpoint forEach {A} (l : list A) (f : A -> Async unit) : Async unit :=
  match l with
  | [] => ret tt
  | x :: l' => run f x; forEach l' f
  end.

Definition exec {A} (m : Async A) (w : World) : World := snd (m w).
Definition result {A} (m : Async A) (w : World) : Outcome A := fst (m w).

Definition emit (e : Effect) : Async unit :=
  modify (fun w => mkWorld (Guilds w) (Rooms w) (RoomLeaderboard w) (Users w)
                           (themesCache w) (effects w ++ [e])).

Definition setLeaderboard (f : gmap string RoomLeaderboardData -> gmap string RoomLeaderboardData)
  : Async unit :=
  modify (fun w => mkWorld (Guilds w) (Rooms w) (f (RoomLeaderboard w)) (Users w)
                           (themesCache w) (effects w)).

(** ** Score ledger *)

Module Ledger.

(** [RoomLeaderboard.findById(id)] *)
Definition findById (id : string) : Async (option LeaderboardDocument) :=
  get (fun w => (fun d => (id, d)) <$> RoomLeaderboard w !! id).

(** [leaderboard.save()] *)
Definition save (d : LeaderboardDocument) : Async unit :=
  setLeaderboard (insert (fst d) (snd d)).

End Ledger.

(** [GameHandler.bumpScore], lines 303-309. *)
Definition bumpScore (userId : string) : Async unit :=
  await leaderboard <- Ledger.findById userId;
  match leaderboard with
  | Some (id, d) => Ledger.save (id, mkLeaderboard (guildId d) (score d + 1))
  | None => ret tt
  end.

(** ** Numbers as the winner computation uses them *)

(** A score is an integer; [Math.max()] of no argument is [-Infinity]. *)
Inductive JSNumber :=
| NegInfinity
| Finite (z : Z).

Global Instance JSNumber_eq_dec : EqDecision JSNumber.
Proof. solve_decision. Defined.

(** [Math.max(...scores)] *)
Definition Math_max (scores : list Z) : JSNumber :=
  foldr (fun x acc => match acc with
                      | NegInfinity => Finite x
                      | Finite y => Finite (Z.max x y)
                      end) NegInfinity scores.

(** [Math.round(x)]: the nearest integer, a tie going up. *)
Definition Math_round (x : Q) : Z := Qfloor (x + (1 # 2))%Q.

(** [n - 1] *)
Definition minus_one (n : JSNumber) : JSNumber :=
  match n with
  | NegInfinity => NegInfinity
  | Finite z => Finite (z - 1)
  end.

(** [a > b] for an integer [a] *)
Definition gt_number (a : Z) (b : JSNumber) : bool :=
  match b with
  | NegInfinity => true
  | Finite z => z <? a
  end.

(** [a >= b] for an integer [b] *)
Definition ge_number (a : JSNumber) (b : Z) : bool :=
  match a with
  | NegInfinity => false
  | Finite z => b <=? z
  end.

(** ** The handler and what it sees of the outside *)

Record AnyGuildChannel := mkChannel {
  channel_type : Z;
  voiceMembers : list string   (* the ids of the members in the channel *)
}.

(** [this] of [GameHandler]: the command message, the client, the options
    and the collaborators that answer without touching the collections. *)
Record GameHandler := mkHandler {
  guildID : string;                      (* message.guildID *)
  authorID : string;                     (* message.author.id *)
  channelID : string;                    (* message.channel.id *)
  voiceStateChannelID : option string;   (* message.member.voiceState.channelID *)
  clientUserID : string;                 (* client.user.id *)
  guildChannels : gmap string AnyGuildChannel;  (* discordGuild.channels *)
  gameOptions : GameOptions;
  t : string -> list (string * string) -> string;  (* the translation function *)
  handleLevelByMode : string -> string -> Stats (* LevelHandler *)
}.

(** What the external services answer during one round start. *)
Record RoundInputs := mkInputs {
  themeLookup : Outcome MioSong;     (* the theme the selector settles on *)
  streamLookup : option string;      (* getStreamFromURL: [None] is a rejection *)
  animeDataLookup : Outcome string   (* getAnimeData *)
}.

(** What the [end] listener of a round closes over. *)
Record RoundContext := mkContext {
  ctx_room : RoomDocument;
  ctx_guild : GuildDocument;
  ctx_voiceChannelID : string;
  ctx_isSingleplayer : bool;
  ctx_theme : MioSong;
  ctx_animeData : string
}.

Inductive RoundStart :=
| NotStarted
| Started (c : RoundContext).

(** The value [getMatchWinner] resolves to. *)
Inductive MatchWinner :=
| WinnerFalse
| WinnerNull
| WinnerDocument (d : LeaderboardDocument).

Definition truthy (m : MatchWinner) : bool :=
  match m with
  | WinnerDocument _ => true
  | _ => false
  end.

(** An array is truthy, whatever it holds. *)
Definition truthy_array {A} (l : list A) : bool := true.

(** ** Collections *)

Definition setGuilds (f : gmap string GuildData -> gmap string GuildData) : Async unit :=
  modify (fun w => mkWorld (f (Guilds w)) (Rooms w) (RoomLeaderboard w) (Users w)
                           (themesCache w) (effects w)).

Definition setRooms (f : gmap string RoomData -> gmap string RoomData) : Async unit :=
  modify (fun w => mkWorld (Guilds w) (f (Rooms w)) (RoomLeaderboard w) (Users w)
                           (themesCache w) (effects w)).

Definition setUsers (f : gmap string UserData -> gmap string UserData) : Async unit :=
  modify (fun w => mkWorld (Guilds w) (Rooms w) (RoomLeaderboard w) (f (Users w))
                           (themesCache w) (effects w)).

Definition setThemesCache (f : gmap string string -> gmap string string) : Async unit :=
  modify (fun w => mkWorld (Guilds w) (Rooms w) (RoomLeaderboard w) (Users w)
                           (f (themesCache w)) (effects w)).

(** [RoomLeaderboard.find({ guildId })] on a collection *)
Definition entriesOf (g : string) (m : gmap string RoomLeaderboardData)
  : list LeaderboardDocument :=
  filter (fun d : LeaderboardDocument => guildId (snd d) = g) (map_to_list m).

(** [RoomLeaderboard.findOne({ guildId, score })] on a collection *)
Definition firstWithScore (g : string) (s : JSNumber) (m : gmap string RoomLeaderboardData)
  : option LeaderboardDocument :=
  head (filter (fun d : LeaderboardDocument => Finite (score (snd d)) = s) (entriesOf g m)).

Module Leaderboards.

Definition find (g : string) : Async (list LeaderboardDocument) :=
  get (fun w => entriesOf g (RoomLeaderboard w)).

Definition findOne (g : string) (s : JSNumber) : Async (option LeaderboardDocument) :=
  get (fun w => firstWithScore g s (RoomLeaderboard w)).

(** [board.deleteOne()]: nothing happens when the document is gone. *)
Definition deleteOne (d : LeaderboardDocument) : Async unit :=
  setLeaderboard (delete (fst d)).

End Leaderboards.

Module User.

Definition findById (id : string) : Async (option UserDocument) :=
  get (fun w => (fun d => (id, d)) <$> Users w !! id).

Definition save (d : UserDocument) : Async unit :=
  setUsers (insert (fst d) (snd d)).

End User.

Module GuildsCollection.

Definition findById (id : string) : Async (option GuildDocument) :=
  get (fun w => (fun d => (id, d)) <$> Guilds w !! id).

Definition save (d : GuildDocument) : Async unit :=
  setGuilds (insert (fst d) (snd d)).

End GuildsCollection.

Module RoomsCollection.

Definition findById (id : string) : Async (option RoomDocument) :=
  get (fun w => (fun d => (id, d)) <$> Rooms w !! id).

Definition exists_ (id : string) : Async bool :=
  get (fun w => bool_decide (is_Some (Rooms w !! id))).

Definition save (d : RoomDocument) : Async unit :=
  setRooms (insert (fst d) (snd d)).

(** [room.deleteOne()]: nothing happens when the document is gone. *)
Definition deleteOne (d : RoomDocument) : Async unit :=
  setRooms (delete (fst d)).

End RoomsCollection.

(** ** GameHandler *)

Definition lift {A} (o : Outcome A) : Async A := fun w => (o, w).

Definition send (c : Content) : Async unit := emit (createMessage c).

(** [isSinglePlayer], lines 293-301. *)
Definition isSinglePlayer (this : GameHandler) (voiceChannel : AnyGuildChannel)
  : Outcome bool :=
  if bool_decide (channel_type voiceChannel ≠ 2) then
    Thrown (Error "Invalid Channel Type")
  else
    let voiceChannelMembers :=
      filter (fun member : string => member ≠ clientUserID this)
             (voiceMembers voiceChannel) in
    if bool_decide (length voiceChannelMembers = 1%nat) then Returned true
    else Returned false.

(** [getMatchWinner], lines 243-276. *)
Definition getMatchWinner (this : GameHandler) (isSinglePlayer : bool)
  : Async MatchWinner :=
  await leaderboards <- Leaderboards.find (guildID this);
  if negb (truthy_array leaderboards) then ret WinnerFalse
  else
    let scores := map (fun user : LeaderboardDocument => score (snd user)) leaderboards in
    let highestScore := Math_max scores in
    let halfRounds := (inject_Z (rounds (gameOptions this)) / 2)%Q in
    let roundedHalfRounds := Math_round halfRounds in
    let wonRounds := minus_one highestScore in
    if isSinglePlayer && gt_number roundedHalfRounds wonRounds then ret WinnerFalse
    else
      await highestUser <- Leaderboards.findOne (guildID this) highestScore;
      ret (match highestUser with
           | Some d => WinnerDocument d
           | None => WinnerNull
           end).

(** [handleFinish], lines 216-241. *)
Definition handleFinish (this : GameHandler) (room : RoomDocument)
    (voiceChannelID : string) (isSinglePlayer force : bool) : Async unit :=
  run (if negb force then
         await matchWinner <- getMatchWinner this isSinglePlayer;
         match matchWinner with
         | WinnerDocument d =>
             await winnerUser <- User.findById (fst d);
             match winnerUser with
             | None => throw TypeError
             | Some u =>
                 let newStats := handleLevelByMode this (fst u) (mode (gameOptions this)) in
                 send (Congrats (fst u) (stats_xp newStats))
             end
         | _ => ret tt
         end
       else ret tt);
  emit (leaveVoiceChannel (Some voiceChannelID)).

(** [clearData], lines 278-291. *)
Definition clearData (this : GameHandler) (room : RoomDocument) (guild : GuildDocument)
  : Async unit :=
  await leaderboards <- Leaderboards.find (guildID this);
  run setThemesCache (fun _ => ∅);
  let guild := (fst guild, mkGuild (prefix (snd guild)) false) in
  run forEach leaderboards (fun board => detached (Leaderboards.deleteOne board));
  run GuildsCollection.save guild;
  RoomsCollection.deleteOne room.

(** [handleLevel], lines 311-327. *)
Definition handleLevel (this : GameHandler) (userId : string) : Async unit :=
  await user <- User.findById userId;
  let stats := handleLevelByMode this userId (mode (gameOptions this)) in
  match user with
  | None => throw TypeError
  | Some (id, u) =>
      run (if bool_decide (stats_level stats ≠ level u) then
             send (LevelUp userId (stats_level stats))
           else ret tt);
      User.save (id, mkUser (xp u + stats_xp stats) (level u))
  end.

(** Modelled from the spec: [RoomHandler] (handlers/RoomHandler) is not
    among the sources. The Session is "created on first round start for a
    guild" and on a later round the handler must "increment currentRound,
    reset the per-round answerer set" on "the same document"; this is the
    body of [handleRoom] and [createRoom] of the earlier handler [Game],
    with the mode given to the constructor stored in the new room. The
    document is saved before it is returned, as the earlier handler does
    ([await room.save()]) and as the callers suppose: [startNewRound] asks
    [Rooms.exists] for it (line 61), [clearData] deletes it, and the round
    counter has to outlive the [RoomHandler], which is built anew for every
    round. *)
Definition handleRoom (this : GameHandler) (isSingleplayer : bool) : Async RoomDocument :=
  await oldRoom <- RoomsCollection.findById (guildID this);
  match oldRoom with
  | None =>
      let newRoom :=
        (guildID this, mkRoom [] (channelID this) (authorID this) 1 isSingleplayer) in
      run RoomsCollection.save newRoom;
      ret newRoom
  | Some (id, r) =>
      let oldRoom :=
        (id, mkRoom [] (channel r) (startedBy r) (currentRound r + 1) (isSingleplayerRoom r)) in
      run RoomsCollection.save oldRoom;
      ret oldRoom
  end.

(** Modelled from the spec: [ThemesHandler] is not among the sources. Its
    [getTheme] yields the theme the selector settles on (or its fault) and
    "on acceptance, record[s] the reference in ThemeCache", as [getTheme]
    of the earlier handler [Game] does with
    [themesCache.set(link, guildID)]. *)
Definition getTheme (this : GameHandler) (x : RoundInputs) : Async MioSong :=
  await theme <- lift (themeLookup x);
  run setThemesCache (insert (link theme) (guildID this));
  ret theme.

(** [startNewRound], lines 57-214, up to the registration of the two
    collectors; what their [end] listener does is [answerCollectorEnd]. *)
Definition startNewRound (this : GameHandler) (x : RoundInputs) (guild : GuildDocument)
  : Async RoundStart :=
  match voiceStateChannelID this with
  | None =>
      await oldRoomExists <- RoomsCollection.exists_ (guildID this);
      if (oldRoomExists : bool) then
        run emit (leaveVoiceChannel None);
        run send (Text (t this "game:errors.noUsersInTheVoiceChannel" []));
        ret NotStarted
      else
        run send (Text (t this "game:errors.noVoiceChannel" []));
        ret NotStarted
  | Some voiceChannelID =>
      await voiceChannel <-
        lift (match guildChannels this !! voiceChannelID with
              | Some c => Returned c
              | None => Thrown TypeError
              end);
      await isSingleplayer <- lift (isSinglePlayer this voiceChannel);
      await room <- handleRoom this isSingleplayer;
      run (if bool_decide (currentRound (snd room) = 1) then send (Embed preparingMatch)
           else send (Embed startingNextRound));
      await theme <- getTheme this x;
      await stream <-
        lift (match streamLookup x with
              | Some s => Returned s
              | None => Thrown (Error (t this "game:errors.unableToLoadStream" []))
              end);
      await user <- User.findById (authorID this);
      await animeData <- lift (animeDataLookup x);
      let guild := (fst guild, mkGuild (prefix (snd guild)) true) in
      run GuildsCollection.save guild;
      run send (Embed (roundStarted (currentRound (snd room))));
      run emit (playTheme voiceChannelID stream);
      ret (Started (mkContext room guild voiceChannelID isSingleplayer theme animeData))
  end.

Inductive StopReason :=
| forceFinished
| timeLimit.

Inductive RoundEnd :=
| Finished
| NextRound (r : Outcome RoundStart).

(** [room.answerers.map((id) => `<@${id}>`).join(', ')] *)
Definition mentions (ids : list string) : string :=
  String.concat ", " (map (fun id => String.append "<@" (String.append id ">")) ids).

(** Lines 174-197 of the [end] listener: the reveal, the list of the
    round's answerers and their score and level. [bumpScore] and
    [handleLevel] are started with [void]. *)
Definition revealAndScore (this : GameHandler) (c : RoundContext) : Async unit :=
  let room := ctx_room c in
  let users :=
    if bool_decide (0 < length (answerers (snd room)))%nat
    then mentions (answerers (snd room))
    else t this "utils:nobody" [] in
  let answerEmbed := answerEmbed (ctx_theme c) (ctx_animeData c) in
  run send (Text "The answer is...");
  run send (Embed answerEmbed);
  run send (Text (t this "game:winners" [("users", users)]));
  forEach (answerers (snd room)) (fun id =>
    run detached (bumpScore id);
    detached (handleLevel this id)).

(** The [end] listener of the answer collector, lines 164-211. [c] holds
    the room document as the round left it; [next] is what the external
    services answer if another round is started. *)
Definition answerCollectorEnd (this : GameHandler) (next : RoundInputs)
    (c : RoundContext) (stopReason : StopReason) : Async RoundEnd :=
  let room := ctx_room c in
  let guild := ctx_guild c in
  let voiceChannelID := ctx_voiceChannelID c in
  let isSingleplayer := ctx_isSingleplayer c in
  match stopReason with
  | forceFinished =>
      run handleFinish this room voiceChannelID isSingleplayer true;
      run clearData this room guild;
      ret Finished
  | timeLimit =>
      run revealAndScore this c;
      if bool_decide (rounds (gameOptions this) <= currentRound (snd room)) then
        run handleFinish this room voiceChannelID isSingleplayer false;
        run clearData this room guild;
        run send (Text (t this "game:roundEnded" []));
        ret Finished
      else
        fun w =>
          match startNewRound this next guild w with
          | (Thrown err, w') =>
              (Returned (NextRound (Thrown err)), exec (emit (handleError err)) w')
          | (r, w') => (Returned (NextRound r), w')
          end
  end.

(** [initGame], lines 46-55. *)
Definition initGame (this : GameHandler) (x : RoundInputs) : Async (option RoundStart) :=
  await guild <- GuildsCollection.findById (guildID this);
  match guild with
  | None => ret None
  | Some guild =>
      fun w =>
        match startNewRound this x guild w with
        | (Thrown err, w') => (Returned None, exec (emit (handleError err)) w')
        | (Returned r, w') => (Returned (Some r), w')
        end
  end.

(** ** The earlier handler: theme selection *)

Module Game.

(** [chooseTheme], lines 169-178 of the earlier handler.
    [getThemeByMode n] is what call number [n] of [themes.getThemeByMode]
    settles to: a rejection, no theme, or a theme. The recursion has no
    measure in the source, so the embedding follows at most [fuel] calls:
    [None] means that the selection is still recursing when the fuel is
    spent. *)
Fixpoint chooseTheme (fuel : nat) (getThemeByMode : nat -> Outcome (option MioSong))
    (themesCache : gmap string string) (call : nat) : option (Outcome MioSong) :=
  match fuel with
  | O => None
  | S fuel' =>
      match getThemeByMode call with
      | Thrown e => Some (Thrown e)
      | Returned None => chooseTheme fuel' getThemeByMode themesCache (S call)
      | Returned (Some theme) =>
          if bool_decide (themesCache !! link theme ≠ None) then
            chooseTheme fuel' getThemeByMode themesCache (S call)
          else Some (Returned theme)
      end
  end.

End Game.

(** ** RitsuUtils *)

Module RitsuUtils.

(** [randomValueInArray], lines 10-12. [random] is the value of
    [Math.random()], taken as an exact rational; [None] is [undefined]. *)
Definition randomValueInArray {T} (random : Q) (array : list T) : option T :=
  let index := Qfloor (random * inject_Z (Z.of_nat (length array))) in
  if index <? 0 then None else array !! Z.to_nat index.

End RitsuUtils.

(** ** Vocabulary of the statements *)

(** An entry with its score raised by [k]. *)
Definition addScore (k : Z) (d : RoomLeaderboardData) : RoomLeaderboardData :=
  mkLeaderboard (guildId d) (score d + k).

Definition withLeaderboard (w : World) (m : gmap string RoomLeaderboardData) : World :=
  mkWorld (Guilds w) (Rooms w) m (Users w) (themesCache w) (effects w).

Definition emptyWorld : World := mkWorld ∅ ∅ ∅ ∅ ∅ [].

(** The scores of a guild's entries and their maximum, as
    [getMatchWinner] computes them. *)
Definition scoresOf (g : string) (m : gmap string RoomLeaderboardData) : list Z :=
  map (fun user : LeaderboardDocument => score (snd user)) (entriesOf g m).

Definition highestScore (this : GameHandler) (w : World) : JSNumber :=
  Math_max (scoresOf (guildID this) (RoomLeaderboard w)).

(** Whether the value [getMatchWinner] resolves to is truthy. *)
Definition winnerDeclared (this : GameHandler) (isSinglePlayer : bool) (w : World) : bool :=
  match result (getMatchWinner this isSinglePlayer) w with
  | Returned r => truthy r
  | Thrown _ => false
  end.

(** A handler of guild ["guild"] playing [n] rounds. *)
Definition handlerWithRounds (n : Z) : GameHandler :=
  mkHandler "guild" "author" "channel" (Some "voice") "bot"
            {[ "voice" := mkChannel 2 ["bot"; "alice"; "bob"] ]}
            (mkOptions n 30000 "normal") (fun key _ => key) (fun _ _ => mkStats 10 1).

(** A world whose leaderboard is [m]. *)
Definition worldWithLeaderboard (m : gmap string RoomLeaderboardData) : World :=
  mkWorld ∅ ∅ m ∅ ∅ [].

(** The channel holds exactly one participant other than the bot: one
    member whose id is not the bot's, every other member being the bot. *)
Definition exactlyOneOtherThan (bot : string) (members : list string) : Prop :=
  ∃ before p after,
    members = (before ++ p :: after)%list ∧ p ≠ bot
    ∧ Forall (eq bot) before ∧ Forall (eq bot) after.

(** The members of a channel other than the bot. *)
Definition othersThan (bot : string) (members : list string) : list string :=
  filter (fun member : string => member ≠ bot) members.

Definition voiceChannelOf (members : list string) : AnyGuildChannel := mkChannel 2 members.

Definition textChannelOf (members : list string) : AnyGuildChannel := mkChannel 0 members.


(** An answer of the theme source after which [chooseTheme] asks again:
    no theme, or a theme whose link is in the cache. *)
Definition refused (themesCache : gmap string string) (answer : Outcome (option MioSong))
  : bool :=
  match answer with
  | Returned None => true
  | Returned (Some theme) => bool_decide (themesCache !! link theme ≠ None)
  | Thrown _ => false
  end.

(** Theme sources used in the examples. *)
Definition usedTheme : MioSong := mkSong "Used" "https://themes/used.webm" "1".

Definition freshTheme : MioSong := mkSong "Fresh" "https://themes/fresh.webm" "2".

Definition usedCache : gmap string string := {[ link usedTheme := "guild" ]}.

(** A source that keeps answering the same, already used, theme. *)
Definition degenerateSource : nat -> Outcome (option MioSong) :=
  fun _ => Returned (Some usedTheme).

(** A source that never has a theme. *)
Definition emptySource : nat -> Outcome (option MioSong) := fun _ => Returned None.

(** A source that answers the used theme, then nothing, then a fresh one. *)
Definition thirdTimeLucky : nat -> Outcome (option MioSong) :=
  fun call => match call with
              | O => Returned (Some usedTheme)
              | S O => Returned None
              | _ => Returned (Some freshTheme)
              end.

(** A source that answers the used theme and then is unreachable. *)
Definition unreachableSource : nat -> Outcome (option MioSong) :=
  fun call => match call with
              | O => Returned (Some usedTheme)
              | _ => Thrown (Rejected "unreachable")
              end.

(** A leaderboard without the entries of guild [g]. *)
Definition withoutGuild (g : string) (m : gmap string RoomLeaderboardData)
  : gmap string RoomLeaderboardData :=
  filter (fun d : string * RoomLeaderboardData => guildId (snd d) ≠ g) m.

(** A leaderboard after [deleteOne] on each of the documents [l]. *)
Definition deleteAll (l : list LeaderboardDocument) (m : gmap string RoomLeaderboardData)
  : gmap string RoomLeaderboardData :=
  foldl (fun m board => delete (fst board) m) m l.

(** The terminal state of a session: the guild saved with [rolling] false,
    the room and the guild's leaderboard entries gone, the theme cache
    empty; users and the log as they were. *)
Definition cleared (this : GameHandler) (room : RoomDocument) (guild : GuildDocument)
    (w : World) : World :=
  mkWorld (<[fst guild := mkGuild (prefix (snd guild)) false]> (Guilds w))
          (delete (fst room) (Rooms w))
          (withoutGuild (guildID this) (RoomLeaderboard w))
          (Users w) ∅ (effects w).

(** A session of guild ["guild"] in its round [n]: alice has answered the
    round; the leaderboard holds alice with 7 and bob with 4. *)
Definition sampleGuild : GuildDocument := ("guild", mkGuild "!" true).

Definition sampleRoom (n : Z) : RoomDocument :=
  ("guild", mkRoom ["alice"] "channel" "author" n false).

Definition sampleContext (n : Z) : RoundContext :=
  mkContext (sampleRoom n) sampleGuild "voice" false usedTheme "Used (anime)".

Definition sampleWorld (n : Z) : World :=
  mkWorld {[ "guild" := snd sampleGuild ]}
          {[ "guild" := snd (sampleRoom n) ]}
          {[ "alice" := mkLeaderboard "guild" 7; "bob" := mkLeaderboard "guild" 4 ]}
          {[ "alice" := mkUser 0 1; "bob" := mkUser 0 1; "author" := mkUser 0 1 ]}
          usedCache [].

(** A guild that is known and has no session yet. *)
Definition idleWorld : World :=
  mkWorld {[ "guild" := mkGuild "!" false ]} ∅ ∅ {[ "author" := mkUser 0 1 ]} ∅ [].

Definition goodInputs : RoundInputs :=
  mkInputs (Returned freshTheme) (Some "stream") (Returned "Fresh (anime)").

(** The theme is found and its stream cannot be resolved. *)
Definition noStream : RoundInputs :=
  mkInputs (Returned freshTheme) None (Returned "Fresh (anime)").

(** The room document [handleRoom] saves, given the one it finds. *)
Definition nextRoom (this : GameHandler) (isSingleplayer : bool) (old : option RoomData)
  : RoomData :=
  match old with
  | None => mkRoom [] (channelID this) (authorID this) 1 isSingleplayer
  | Some r => mkRoom [] (channel r) (startedBy r) (currentRound r + 1) (isSingleplayerRoom r)
  end.

(** The embed sent once the room is known. *)
Definition openingEmbed (r : RoomData) : GameEmbed :=
  if bool_decide (currentRound r = 1) then preparingMatch else startingNextRound.

(** The world [startNewRound] leaves when the stream of [theme] cannot be
    resolved, in mode [sp]. *)
Definition afterStreamFailure (this : GameHandler) (sp : bool) (theme : MioSong) (w : World)
  : World :=
  let r := nextRoom this sp (Rooms w !! guildID this) in
  mkWorld (Guilds w)
          (<[guildID this := r]> (Rooms w))
          (RoomLeaderboard w)
          (Users w)
          (<[link theme := guildID this]> (themesCache w))
          (effects w ++ [createMessage (Embed (openingEmbed r))]).

Definition streamError (this : GameHandler) : Fault :=
  Error (t this "game:errors.unableToLoadStream" []).

(** The effects by which a round start shows: an opening or round-started
    embed, or the playback of a theme. *)
Definition startsRound (e : Effect) : bool :=
  match e with
  | playTheme _ _ => true
  | createMessage (Embed preparingMatch) => true
  | createMessage (Embed startingNextRound) => true
  | createMessage (Embed (roundStarted _)) => true
  | _ => false
  end.

(** [w'] extends the log of [w] by effects that start no round. *)
Definition noRoundStarted (w w' : World) : Prop :=
  ∃ ext, effects w' = (effects w ++ ext)%list ∧ Forall (fun e => startsRound e = false) ext.

(** From [w] to [w'] guilds and rooms are as they were and no leaderboard
    entry or user was created or deleted. *)
Definition steady (w w' : World) : Prop :=
  Guilds w' = Guilds w ∧ Rooms w' = Rooms w
  ∧ dom (RoomLeaderboard w') = dom (RoomLeaderboard w)
  ∧ dom (Users w') = dom (Users w)
  ∧ noRoundStarted w w'.

(** Every user on the leaderboard has a [User] document. *)
Definition usersKnown (w : World) : Prop :=
  dom (RoomLeaderboard w) ⊆ dom (Users w).

(** [w] with [es] appended to its log. *)
Definition logged (es : list Effect) (w : World) : World :=
  mkWorld (Guilds w) (Rooms w) (RoomLeaderboard w) (Users w) (themesCache w)
          (effects w ++ es).

(** The congratulation of final winner handling in state [w]: one message
    when [getMatchWinner] resolves to a document, none otherwise. *)
Definition winnerAnnouncement (this : GameHandler) (isSinglePlayer : bool) (w : World)
  : list Effect :=
  match result (getMatchWinner this isSinglePlayer) w with
  | Returned (WinnerDocument d) =>
      [createMessage
         (Congrats (fst d)
            (stats_xp (handleLevelByMode this (fst d) (mode (gameOptions this)))))]
  | _ => []
  end.

(** ** Further vocabulary *)

(** The guild document [startNewRound] saves. *)
Definition rollingGuild (guild : GuildDocument) : GuildDocument :=
  (fst guild, mkGuild (prefix (snd guild)) true).

(** How often [id] occurs in a list of ids. *)
Definition occurrences (id : string) (ids : list string) : Z :=
  Z.of_nat (length (filter (fun x : string => x = id) ids)).

Definition isLevelUp (e : Effect) : bool :=
  match e with
  | createMessage (LevelUp _ _) => true
  | _ => false
  end.

(** The line that names the answerers of a round. *)
Definition winnersLine (this : GameHandler) (ids : list string) : Content :=
  Text (t this "game:winners"
          [("users", match ids with
                     | [] => t this "utils:nobody" []
                     | _ => mentions ids
                     end)]).

(** The experience [LevelHandler] grants user [id] for a round. *)
Definition xpOf (this : GameHandler) (id : string) : Z :=
  stats_xp (handleLevelByMode this id (mode (gameOptions this))).

(** What the [end] listener starts for one answerer, lines 194-197. *)
Definition scoreAnswerer (this : GameHandler) (id : string) : Async unit :=
  run detached (bumpScore id); detached (handleLevel this id).

(** The world once every answerer of [ids] has been scored, in order. *)
Definition afterScoring (this : GameHandler) (ids : list string) (w : World) : World :=
  foldl (fun v id => exec (scoreAnswerer this id) v) w ids.

(** A round in which nobody has answered. *)
Definition quietRoom (n : Z) : RoomDocument :=
  ("guild", mkRoom [] "channel" "author" n false).

Definition quietContext (n : Z) : RoundContext :=
  mkContext (quietRoom n) sampleGuild "voice" false usedTheme "Used (anime)".

(** A last round, nobody answering, whose leader, alice, has no [User]
    document. *)
Definition strandedWorld : World :=
  mkWorld {[ "guild" := snd sampleGuild ]}
          {[ "guild" := snd (quietRoom 3) ]}
          {[ "alice" := mkLeaderboard "guild" 7 ]}
          {[ "author" := mkUser 0 1 ]}
          usedCache [].

(** The same handler once the requester has left the voice channel. *)
Definition withoutVoice (this : GameHandler) : GameHandler :=
  mkHandler (guildID this) (authorID this) (channelID this) None (clientUserID this)
            (guildChannels this) (gameOptions this) (t this) (handleLevelByMode this).

(** ** RitsuUtils, continued *)

(** Round to the nearest integer, ties to the even one. *)
Definition roundHalfEven (x : Q) : Z :=
  let f := Qfloor x in
  match (x - inject_Z f ?= 1 # 2)%Q with
  | Lt => f
  | Eq => if Z.even f then f else f + 1
  | Gt => f + 1
  end.

(** For [0 < x], the exponent [e] with [2^e <= x < 2^(e+1)]. *)
Definition binade (x : Q) : Z :=
  let a := Qnum x in
  let b := Zpos (Qden x) in
  if a * 2 ^ Z.log2 b <? b * 2 ^ Z.log2 a
  then Z.log2 a - Z.log2 b - 1
  else Z.log2 a - Z.log2 b.

(** A positive [x] rounded to 53 significant bits. *)
Definition roundPositive (x : Q) : Q :=
  let ulp := ((2 # 1) ^ (binade x - 52))%Q in
  (inject_Z (roundHalfEven (x / ulp)) * ulp)%Q.

(** The rounding of binary64 arithmetic (to nearest, ties to even) on
    values whose exponent is in range. *)
Definition binary64 (x : Q) : Q :=
  match Qnum x with
  | Z0 => 0%Q
  | Zpos _ => roundPositive x
  | Zneg _ => (- roundPositive (- x))%Q
  end.

(** [RitsuUtils.randomIntBetween], lines 4-8. [random] is the value of
    [Math.random()]; [fl] is the rounding of binary64 arithmetic, applied
    to the exact result of each of the three operations. *)
Definition randomIntBetween (fl : Q -> Q) (random min max : Q) : Z :=
  let min := inject_Z (Qceiling min) in
  let max := inject_Z (Qfloor max) in
  Qfloor (fl (fl (random * fl (max - min)) + min)%Q).

(** ** The guildDelete listener *)

Module guildDelete.

(** [run] of the listener, lines 14-16: [Guilds.findByIdAndDelete(guild.id)]; nothing
    happens when the guild has no document. *)
Definition run_ (guild_id : string) : Async unit := setGuilds (delete guild_id).

End guildDelete.

(** ** The earlier handler *)

(** The class [Game] of the earlier handler, around its [chooseTheme]
    (module [Game] above). Its rooms carry the answer of the round, it has
    no leaderboard, and its messages are plain texts. What it writes with
    [console.log] is not part of the model. Theme selection has no measure,
    so every operation that selects a theme takes the [fuel] of
    [Game.chooseTheme] and yields [None] when the selection is still
    recursing with the fuel spent. *)
Module Earlier.

Record Room := mkRoom {
  answerers : list string;
  answer : string;
  channel : string;
  startedBy : string;
  leaderboard : list string;
  currentRound : Z
}.

Definition RoomDocument : Type := string * Room.

(** What an operation of the handler can throw. *)
Inductive Failure :=
| StreamError                   (* new StreamError() *)
| Fault_ (e : Fault)            (* a fault of a collaborator *)
| ErrorOf (e : Failure).        (* new Error(e.message) *)

Inductive Notice :=
| Plain (s : string)
| AnswerEmbed (theme : MioSong) (animeData : string)
| DefaultError (e : Failure).   (* Constants.DEFAULT_ERROR_MESSAGE.replace('$e', e) *)

Inductive Event :=
| createMessage (c : Notice)
| deleteMessage (c : Notice)
| leaveVoiceChannel (channelID : option string)
| playTheme (voiceChannel : string) (stream : string).

Inductive Result (A : Type) :=
| Done (a : A)
| Failed (e : Failure).
Arguments Done {A} a.
Arguments Failed {A} e.

Record State := mkState {
  Guilds : gmap string GuildData;
  Rooms : gmap string Room;
  themesCache : gmap string string;
  events : list Event
}.

(** [this]: the command message and the options. *)
Record Game := mkGame {
  guildID : string;
  authorID : string;
  channelID : string;
  voiceStateChannelID : option string;
  gameOptions : GameOptions
}.

(** What the external services answer during one round start. *)
Record RoundInputs := mkInputs {
  getThemeByMode : nat -> Outcome (option MioSong);   (* call by call *)
  streamLookup : option string;
  animeDataLookup : Outcome string
}.

Definition Run (A : Type) : Type := State -> option (Result A * State).

Definition ret {A} (a : A) : Run A := fun s => Some (Done a, s).
Definition throw {A} (e : Failure) : Run A := fun s => Some (Failed e, s).
Definition bind {A B} (m : Run A) (k : A -> Run B) : Run B :=
  fun s => match m s with
           | Some (Done a, s') => k a s'
           | Some (Failed e, s') => Some (Failed e, s')
           | None => None
           end.

Notation "'wait' x <- m ; k" := (bind m (fun x => k))
  (at level 10, x pattern, m at level 100, k at level 200).
Notation "'perform' m ; k" := (bind m (fun _ => k))
  (at level 10, m at level 100, k at level 200).

Definition emit (e : Event) : Run unit :=
  fun s => Some (Done tt, mkState (Guilds s) (Rooms s) (themesCache s) (events s ++ [e])).

Definition setGuilds (f : gmap string GuildData -> gmap string GuildData) : Run unit :=
  fun s => Some (Done tt, mkState (f (Guilds s)) (Rooms s) (themesCache s) (events s)).

Definition setRooms (f : gmap string Room -> gmap string Room) : Run unit :=
  fun s => Some (Done tt, mkState (Guilds s) (f (Rooms s)) (themesCache s) (events s)).

Definition setThemesCache (f : gmap string string -> gmap string string) : Run unit :=
  fun s => Some (Done tt, mkState (Guilds s) (Rooms s) (f (themesCache s)) (events s)).

Definition findRoom (id : string) : Run (option RoomDocument) :=
  fun s => Some (Done ((fun r => (id, r)) <$> Rooms s !! id), s).

Definition findGuild (id : string) : Run (option GuildDocument) :=
  fun s => Some (Done ((fun g => (id, g)) <$> Guilds s !! id), s).

(** [chooseTheme], lines 169-178, on the cache of the state. *)
Definition chooseTheme (fuel : nat) (x : RoundInputs) : Run MioSong :=
  fun s => match Game.chooseTheme fuel (getThemeByMode x) (themesCache s) 0 with
           | None => None
           | Some (Returned theme) => Some (Done theme, s)
           | Some (Thrown e) => Some (Failed (Fault_ e), s)
           end.

(** [getTheme], lines 157-167. *)
Definition getTheme (this : Game) (fuel : nat) (x : RoundInputs) : Run MioSong :=
  let loadingMessage := Plain "`Fetching the Anime Theme...`" in
  perform emit (createMessage loadingMessage);
  wait choosedTheme <- chooseTheme fuel x;
  perform setThemesCache (insert (link choosedTheme) (guildID this));
  perform emit (deleteMessage loadingMessage);
  ret choosedTheme.

(** [createRoom], lines 145-155. *)
Definition createRoom (this : Game) (answer : string) : Run RoomDocument :=
  let newRoom := (guildID this, mkRoom [] answer (channelID this) (authorID this) [] 1) in
  perform setRooms (insert (fst newRoom) (snd newRoom));
  ret newRoom.

(** [handleRoom], lines 130-143. *)
Definition handleRoom (this : Game) (answer : string) : Run RoomDocument :=
  wait oldRoom <- findRoom (guildID this);
  match oldRoom with
  | None =>
      wait newRoom <- createRoom this answer;
      ret newRoom
  | Some (id, r) =>
      let oldRoom :=
        (id, mkRoom [] (Earlier.answer r) (channel r) (startedBy r) (leaderboard r)
                    (currentRound r + 1)) in
      perform setRooms (insert (fst oldRoom) (snd oldRoom));
      ret oldRoom
  end.

(** [clearData], lines 123-128. *)
Definition clearData (this : Game) (room : RoomDocument) (guild : GuildDocument) : Run unit :=
  let guild := (fst guild, mkGuild (prefix (snd guild)) false) in
  perform setThemesCache (fun _ => ∅);
  perform setGuilds (insert (fst guild) (snd guild));
  setRooms (delete (fst room)).

(** [handleFinish], line 121: an empty body. *)
Definition handleFinish (room : RoomDocument) (force : bool) : Run unit := ret tt.

(** What the [end] listener of a round closes over. *)
Record RoundContext := mkContext {
  ctx_room : RoomDocument;
  ctx_guild : GuildDocument;
  ctx_voiceChannel : string;
  ctx_theme : MioSong;
  ctx_animeData : string
}.

Inductive RoundStart :=
| NotStarted
| Started (c : RoundContext).

(** [startNewRound], lines 48-119, up to the registration of the
    collector. *)
Definition startNewRound (this : Game) (fuel : nat) (x : RoundInputs) (guild : GuildDocument)
  : Run RoundStart :=
  match voiceStateChannelID this with
  | None =>
      wait oldRoom <- findRoom (guildID this);
      perform (match oldRoom with
               | Some _ => emit (leaveVoiceChannel None)
               | None => ret tt
               end);
      perform emit (createMessage (Plain "No Users in Voice Channel."));
      ret NotStarted
  | Some voiceChannel =>
      wait theme <- getTheme this fuel x;
      let loadingMessage := Plain "`Fetching stream...`" in
      perform emit (createMessage loadingMessage);
      wait stream <-
        (match streamLookup x with
         | Some stream => ret stream
         | None => perform emit (deleteMessage loadingMessage); throw StreamError
         end);
      perform emit (deleteMessage loadingMessage);
      let guild := (fst guild, mkGuild (prefix (snd guild)) true) in
      perform setGuilds (insert (fst guild) (snd guild));
      wait room <- handleRoom this (name theme);
      wait animeData <-
        (match animeDataLookup x with
         | Returned a => ret a
         | Thrown e => throw (Fault_ e)
         end);
      perform emit (playTheme voiceChannel stream);
      ret (Started (mkContext room guild voiceChannel theme animeData))
  end.

Inductive RoundEnd :=
| Finished
| NextRound (r : RoundStart).

(** The [end] listener of the answer collector, lines 92-116; the reason
    of the end is not looked at. *)
Definition answerCollectorEnd (this : Game) (fuel : nat) (next : RoundInputs)
    (c : RoundContext) : Run RoundEnd :=
  let room := ctx_room c in
  let guild := ctx_guild c in
  let answerers :=
    if bool_decide (0 < length (answerers (snd room)))%nat
    then mentions (answerers (snd room))
    else "Nobody" in
  perform emit (createMessage (Plain (String.append "Correct Users: " answerers)));
  let embed := AnswerEmbed (ctx_theme c) (ctx_animeData c) in
  perform emit (createMessage (Plain "The answer is..."));
  perform emit (createMessage embed);
  if bool_decide (rounds (gameOptions this) <= currentRound (snd room)) then
    perform clearData this room guild;
    perform emit (leaveVoiceChannel (Some (ctx_voiceChannel c)));
    perform emit (createMessage (Plain "Match ended."));
    ret Finished
  else
    fun s =>
      match startNewRound this fuel next guild s with
      | Some (Failed e, s') => Some (Failed (ErrorOf e), s')
      | Some (Done r, s') => Some (Done (NextRound r), s')
      | None => None
      end.

(** [init], lines 37-46. *)
Definition init (this : Game) (fuel : nat) (x : RoundInputs) : Run (option RoundStart) :=
  wait guild <- findGuild (guildID this);
  match guild with
  | None => ret None
  | Some guild =>
      fun s =>
        match startNewRound this fuel x guild s with
        | Some (Failed e, s') =>
            bind (emit (createMessage (DefaultError e))) (fun _ => ret None) s'
        | Some (Done r, s') => Some (Done (Some r), s')
        | None => None
        end
  end.

(** The state an operation leaves (the state itself while the theme
    selection is still recursing). *)
Definition after {A} (m : Run A) (s : State) : State :=
  match m s with
  | Some (_, s') => s'
  | None => s
  end.

End Earlier.

(** The two loading messages of the earlier handler. *)
Definition fetchingTheme : Earlier.Notice := Earlier.Plain "`Fetching the Anime Theme...`".

Definition fetchingStream : Earlier.Notice := Earlier.Plain "`Fetching stream...`".

(** The state after [handleRoom] has run once for each of [answers]. *)
Definition afterRounds (this : Earlier.Game) (answers : list string) (s : Earlier.State)
  : Earlier.State :=
  foldl (fun s answer => Earlier.after (Earlier.handleRoom this answer) s) s answers.

(** Examples for the earlier handler. *)
Definition earlierGame (n : Z) : Earlier.Game :=
  Earlier.mkGame "guild" "author" "channel" (Some "voice") (mkOptions n 30000 "normal").

Definition earlierIdle : Earlier.State :=
  Earlier.mkState {[ "guild" := mkGuild "!" false ]} ∅ ∅ [].

Definition earlierUsed : Earlier.State :=
  Earlier.mkState {[ "guild" := mkGuild "!" true ]} ∅ usedCache [].

Definition earlierInputs (src : nat -> Outcome (option MioSong)) (stream : option string)
  : Earlier.RoundInputs :=
  Earlier.mkInputs src stream (Returned "Fresh (anime)").


Definition otherTheme : MioSong := mkSong "Other" "https://themes/other.webm" "3".

(** A source that offers the fresh theme again and then another one. *)
Definition freshThenOther : nat -> Outcome (option MioSong) :=
  fun call => match call with
              | O => Returned (Some freshTheme)
              | _ => Returned (Some otherTheme)
              end.

(** The three messages the earlier [end] listener sends first. *)
Definition earlierReveal (c : Earlier.RoundContext) : list Earlier.Event :=
  [Earlier.createMessage
     (Earlier.Plain (String.append "Correct Users: "
                       match Earlier.answerers (snd (Earlier.ctx_room c)) with
                       | [] => "Nobody"
                       | ids => mentions ids
                       end));
   Earlier.createMessage (Earlier.Plain "The answer is...");
   Earlier.createMessage (Earlier.AnswerEmbed (Earlier.ctx_theme c) (Earlier.ctx_animeData c))].

Definition earlierLogged (es : list Earlier.Event) (s : Earlier.State) : Earlier.State :=
  Earlier.mkState (Earlier.Guilds s) (Earlier.Rooms s) (Earlier.themesCache s)
                  (Earlier.events s ++ es).

Definition earlierContext (n : Z) : Earlier.RoundContext :=
  Earlier.mkContext ("guild", Earlier.mkRoom ["alice"] "Used" "channel" "author" [] n)
                    ("guild", mkGuild "!" true) "voice" usedTheme "Used (anime)".

Definition earlierRunning (n : Z) : Earlier.State :=
  Earlier.mkState {[ "guild" := mkGuild "!" true ]}
                  {[ "guild" := Earlier.mkRoom ["alice"] "Used" "channel" "author" [] n ]}
                  usedCache [].

(** ** The round start and its room handler *)

(** [startNewRound] with the room handler as a parameter: the same lines
    57-214, with [roomHandler.handleRoom()] of line 78 left to
    [roomHandler]. *)
Definition startNewRoundWith (roomHandler : bool -> Async RoomDocument)
    (this : GameHandler) (x : RoundInputs) (guild : GuildDocument) : Async RoundStart :=
  match voiceStateChannelID this with
  | None =>
      await oldRoomExists <- RoomsCollection.exists_ (guildID this);
      if (oldRoomExists : bool) then
        run emit (leaveVoiceChannel None);
        run send (Text (t this "game:errors.noUsersInTheVoiceChannel" []));
        ret NotStarted
      else
        run send (Text (t this "game:errors.noVoiceChannel" []));
        ret NotStarted
  | Some voiceChannelID =>
      await voiceChannel <-
        lift (match guildChannels this !! voiceChannelID with
              | Some c => Returned c
              | None => Thrown TypeError
              end);
      await isSingleplayer <- lift (isSinglePlayer this voiceChannel);
      await room <- roomHandler isSingleplayer;
      run (if bool_decide (currentRound (snd room) = 1) then send (Embed preparingMatch)
           else send (Embed startingNextRound));
      await theme <- getTheme this x;
      await stream <-
        lift (match streamLookup x with
              | Some s => Returned s
              | None => Thrown (Error (t this "game:errors.unableToLoadStream" []))
              end);
      await user <- User.findById (authorID this);
      await animeData <- lift (animeDataLookup x);
      let guild := (fst guild, mkGuild (prefix (snd guild)) true) in
      run GuildsCollection.save guild;
      run send (Embed (roundStarted (currentRound (snd room))));
      run emit (playTheme voiceChannelID stream);
      ret (Started (mkContext room guild voiceChannelID isSingleplayer theme animeData))
  end.

(** ** Log vocabulary *)

(** The effects a run has added to the log of [w]. *)
Definition newEffects (w w' : World) : list Effect :=
  drop (length (effects w)) (effects w').

(** * Properties *)

(** ** Score bump *)

Lemma bumpScore_leaderboard userId w :
  RoomLeaderboard (exec (bumpScore userId) w) =
  alter (fun d => mkLeaderboard (guildId d) (score d + 1)) userId (RoomLeaderboard w).
Proof.
  unfold bumpScore, exec, bind, Ledger.findById, get. simpl.
  destruct (RoomLeaderboard w !! userId) as [d|] eqn:E; simpl.
  - apply map_eq. intros k. rewrite lookup_alter, lookup_insert.
    destruct (decide (userId = k)); subst; [by rewrite E|done].
  - apply map_eq. intros k. rewrite lookup_alter.
    destruct (decide (userId = k)); subst; [by rewrite E|done].
Qed.

Lemma bumpScore_exec userId w :
  exec (bumpScore userId) w = withLeaderboard w (alter (addScore 1) userId (RoomLeaderboard w)).
Proof.
  pose proof (bumpScore_leaderboard userId w) as H.
  unfold bumpScore, exec, bind, Ledger.findById, get in *. simpl in *.
  destruct (RoomLeaderboard w !! userId) as [d|] eqn:E; simpl in *.
  - unfold withLeaderboard. f_equal. exact H.
  - destruct w; unfold withLeaderboard; simpl in *. f_equal. exact H.
Qed.

Lemma bumpScore_returns userId w : result (bumpScore userId) w = Returned tt.
Proof.
  unfold bumpScore, result, bind, Ledger.findById, get. simpl.
  by destruct (RoomLeaderboard w !! userId).
Qed.

Lemma alter_addScore (a b : Z) userId (m : gmap string RoomLeaderboardData) :
  alter (addScore a) userId (alter (addScore b) userId m) = alter (addScore (b + a)) userId m.
Proof.
  apply map_eq. intros k.
  destruct (decide (userId = k)) as [->|Hne].
  - rewrite !lookup_alter_eq.
    destruct (m !! k) as [d|]; simpl; [|done].
    unfold addScore; simpl. do 2 f_equal. lia.
  - by rewrite !lookup_alter_ne.
Qed.

Lemma bumpScore_iter userId (k : nat) w :
  Nat.iter k (exec (bumpScore userId)) w =
  withLeaderboard w (alter (addScore (Z.of_nat k)) userId (RoomLeaderboard w)).
Proof.
  induction k as [|k IH].
  - simpl. destruct w; unfold withLeaderboard; simpl. f_equal.
    apply map_eq. intros i. rewrite lookup_alter.
    destruct (decide (userId = i)); [subst|done].
    destruct (RoomLeaderboard0 !! i) as [[g s]|]; simpl; [|done].
    unfold addScore; simpl. do 2 f_equal. lia.
  - rewrite Nat.iter_succ, IH, bumpScore_exec. unfold withLeaderboard; simpl.
    f_equal. rewrite alter_addScore. f_equal. f_equal. lia.
Qed.

(** C1 (as the code has it). [bumpScore userId] only updates: the entry
    whose id is [userId], if there is one, has its score raised by 1 and
    nothing else in the world changes; [k] calls raise the score of an
    existing entry by [k]; the set of entries is never changed, so that no
    entry is created (with score 0, 1 or any other) and [k] calls starting
    from no entry leave no entry. *)
Theorem bumpScore_updates_existing_entry_only userId (k : nat) w :
  result (bumpScore userId) w = Returned tt
  ∧ Nat.iter k (exec (bumpScore userId)) w =
      withLeaderboard w (alter (addScore (Z.of_nat k)) userId (RoomLeaderboard w))
  ∧ RoomLeaderboard (Nat.iter k (exec (bumpScore userId)) w) !! userId =
      addScore (Z.of_nat k) <$> RoomLeaderboard w !! userId
  ∧ dom (RoomLeaderboard (Nat.iter k (exec (bumpScore userId)) w)) = dom (RoomLeaderboard w).
Proof.
  rewrite bumpScore_iter. split_and!.
  - apply bumpScore_returns.
  - reflexivity.
  - simpl. by rewrite lookup_alter_eq.
  - simpl. apply dom_alter_L.
Qed.

(** C1 as stated fails: on a store with no entry for the user, one call and
    three calls both leave the user without any entry, where the claim
    promises an entry of score 1 and of score 3. *)
Lemma bumpScore_creates_no_entry :
  RoomLeaderboard (exec (bumpScore "user") emptyWorld) !! "user" = None
  ∧ RoomLeaderboard (Nat.iter 3 (exec (bumpScore "user")) emptyWorld) !! "user" = None
  ∧ ¬ (∃ d, RoomLeaderboard (exec (bumpScore "user") emptyWorld) !! "user" = Some d
            ∧ score d = 1).
Proof.
  split_and!; [reflexivity | reflexivity |].
  intros [d [H _]]. discriminate H.
Qed.

(** ** Winner computation *)

Lemma Math_max_nil (l : list Z) : Math_max l = NegInfinity ↔ l = [].
Proof.
  destruct l as [|x l]; simpl; [done|].
  split; [|done]. by destruct (Math_max l).
Qed.

Lemma Math_max_attained (l : list Z) (s : Z) :
  Math_max l = Finite s → s ∈ l ∧ ∀ x, x ∈ l → x <= s.
Proof.
  revert s. induction l as [|y l IH]; intros s; simpl; [done|].
  destruct (Math_max l) as [|m] eqn:E.
  - apply Math_max_nil in E as ->. intros [= <-]. split; [left|].
    intros x Hx. apply list_elem_of_singleton in Hx as ->. lia.
  - intros [= <-]. destruct (IH m eq_refl) as [Hin Hle]. split.
    + destruct (Z.max_spec y m) as [[_ ->]|[_ ->]]; [by right|left].
    + intros x [->|Hx]%elem_of_cons; [lia|]. specialize (Hle x Hx). lia.
Qed.

Lemma elem_of_entriesOf g (m : gmap string RoomLeaderboardData) id d :
  (id, d) ∈ entriesOf g m ↔ m !! id = Some d ∧ guildId d = g.
Proof.
  unfold entriesOf. rewrite list_elem_of_filter, elem_of_map_to_list. simpl. tauto.
Qed.

Lemma entriesOf_nil g (m : gmap string RoomLeaderboardData) :
  entriesOf g m = [] ↔ ∀ id d, m !! id = Some d → guildId d ≠ g.
Proof.
  split.
  - intros E id d Hd Hg.
    assert ((id, d) ∈ entriesOf g m) as Hin by by apply elem_of_entriesOf.
    rewrite E in Hin. by apply elem_of_nil in Hin.
  - intros H. apply elem_of_nil_inv. intros [id d] [Hd Hg]%elem_of_entriesOf.
    by apply (H id d).
Qed.

Lemma getMatchWinner_unfold this sp w :
  getMatchWinner this sp w =
  (Returned
     (if sp && gt_number (Math_round (inject_Z (rounds (gameOptions this)) / 2))
                         (minus_one (highestScore this w))
      then WinnerFalse
      else match firstWithScore (guildID this) (highestScore this w) (RoomLeaderboard w) with
           | Some d => WinnerDocument d
           | None => WinnerNull
           end), w).
Proof.
  unfold getMatchWinner, bind, Leaderboards.find, Leaderboards.findOne, get, ret.
  simpl. fold (scoresOf (guildID this) (RoomLeaderboard w)). fold (highestScore this w).
  by destruct (sp && _).
Qed.

Lemma firstWithScore_highest this w s :
  highestScore this w = Finite s →
  ∃ d, firstWithScore (guildID this) (Finite s) (RoomLeaderboard w) = Some d
       ∧ d ∈ entriesOf (guildID this) (RoomLeaderboard w)
       ∧ score (snd d) = s.
Proof.
  intros H. apply Math_max_attained in H as [Hin _].
  unfold scoresOf in Hin. apply list_elem_of_In, in_map_iff in Hin as [d [Hs Hd]].
  apply list_elem_of_In in Hd.
  unfold firstWithScore.
  destruct (head _) as [e|] eqn:E.
  - exists e. split; [done|].
    apply head_Some_elem_of, list_elem_of_filter in E as [He1 He2].
    split; [done|]. by injection He1.
  - apply head_None in E.
    assert (d ∈ filter (fun d : LeaderboardDocument => Finite (score (snd d)) = Finite s)
                       (entriesOf (guildID this) (RoomLeaderboard w))) as Hf.
    { apply list_elem_of_filter. split; [by rewrite Hs|done]. }
    rewrite E in Hf. by apply elem_of_nil in Hf.
Qed.

Lemma winnerDeclared_single this w :
  winnerDeclared this true w =
  ge_number (minus_one (highestScore this w))
            (Math_round (inject_Z (rounds (gameOptions this)) / 2)).
Proof.
  unfold winnerDeclared, result. rewrite getMatchWinner_unfold. simpl.
  destruct (highestScore this w) as [|s] eqn:E; simpl; [done|].
  destruct (Z.ltb_spec (s - 1) (Math_round (inject_Z (rounds (gameOptions this)) / 2)));
    destruct (Z.leb_spec (Math_round (inject_Z (rounds (gameOptions this)) / 2)) (s - 1));
    try lia; simpl; [done|].
  destruct (firstWithScore_highest this w s E) as [d [-> _]]. done.
Qed.

Lemma Math_round_half (n : Z) : Math_round (inject_Z n / 2) = (n + 1) / 2.
Proof.
  unfold Math_round, Qfloor, Qdiv, Qmult, Qplus, Qinv, inject_Z. simpl.
  pose proof (Z.mod_pos_bound (n + 1) 2 ltac:(lia)) as Hmod.
  pose proof (Z.div_mod (n + 1) 2 ltac:(lia)) as Hdiv.
  symmetry. apply Z.div_unique with (r := 2 * ((n + 1) mod 2)); lia.
Qed.

Lemma Math_round_half_even (k : Z) : Math_round (inject_Z (2 * k) / 2) = k.
Proof.
  rewrite Math_round_half. apply eq_sym, (Z.div_unique _ _ _ 1); lia.
Qed.

Lemma Math_round_half_odd (k : Z) : Math_round (inject_Z (2 * k + 1) / 2) = k + 1.
Proof.
  rewrite Math_round_half. apply eq_sym, (Z.div_unique _ _ _ 0); lia.
Qed.

(** C3. In single-player mode a winner is declared exactly when
    [highestScore - 1 >= Math.round(rounds / 2)], where [Math.round] of a
    half is the nearest integer and a tie goes up ([2k/2] gives [k],
    [(2k+1)/2] gives [k+1]); with 10 rounds a sole answerer of score 6 is
    declared winner and one of score 5 is not. *)
Theorem single_player_winner_rule :
  (∀ this w,
     winnerDeclared this true w =
     ge_number (minus_one (highestScore this w))
               (Math_round (inject_Z (rounds (gameOptions this)) / 2)))
  ∧ (∀ k, Math_round (inject_Z (2 * k) / 2) = k
          ∧ Math_round (inject_Z (2 * k + 1) / 2) = k + 1)
  ∧ result (getMatchWinner (handlerWithRounds 10) true)
           (worldWithLeaderboard {[ "solo" := mkLeaderboard "guild" 6 ]})
    = Returned (WinnerDocument ("solo", mkLeaderboard "guild" 6))
  ∧ result (getMatchWinner (handlerWithRounds 10) true)
           (worldWithLeaderboard {[ "solo" := mkLeaderboard "guild" 5 ]})
    = Returned WinnerFalse.
Proof.
  split_and!.
  - apply winnerDeclared_single.
  - intros k. split; [apply Math_round_half_even | apply Math_round_half_odd].
  - vm_compute. reflexivity.
  - vm_compute. reflexivity.
Qed.

Lemma highestScore_no_entries this w :
  entriesOf (guildID this) (RoomLeaderboard w) = [] → highestScore this w = NegInfinity.
Proof. intros E. unfold highestScore, scoresOf. by rewrite E. Qed.

Lemma highestScore_some_entry this w id d :
  RoomLeaderboard w !! id = Some d → guildId d = guildID this →
  ∃ s, highestScore this w = Finite s.
Proof.
  intros Hd Hg. destruct (highestScore this w) as [|s] eqn:E; [|by exists s].
  apply Math_max_nil in E. unfold scoresOf in E. apply map_eq_nil in E.
  assert ((id, d) ∈ entriesOf (guildID this) (RoomLeaderboard w)) as Hin
    by by apply elem_of_entriesOf.
  rewrite E in Hin. by apply elem_of_nil in Hin.
Qed.

(** C8. When the guild has no leaderboard entry, [getMatchWinner] resolves
    (it does not throw) to a falsy value in single-player and in
    multiplayer mode; when the guild has an entry, in multiplayer mode it
    resolves to an entry of the guild whose score is the maximum of the
    guild's scores. It writes nothing. *)
Theorem getMatchWinner_none_or_maximum this w :
  ((∀ id d, RoomLeaderboard w !! id = Some d → guildId d ≠ guildID this) →
   ∀ isSinglePlayer, ∃ r,
     getMatchWinner this isSinglePlayer w = (Returned r, w) ∧ truthy r = false)
  ∧ (∀ id0 d0, RoomLeaderboard w !! id0 = Some d0 → guildId d0 = guildID this →
     ∃ id d,
       getMatchWinner this false w = (Returned (WinnerDocument (id, d)), w)
       ∧ RoomLeaderboard w !! id = Some d
       ∧ guildId d = guildID this
       ∧ ∀ id' d', RoomLeaderboard w !! id' = Some d' → guildId d' = guildID this →
                   score d' <= score d).
Proof.
  split.
  - intros Hnone sp. apply entriesOf_nil in Hnone.
    rewrite getMatchWinner_unfold, (highestScore_no_entries _ _ Hnone).
    unfold firstWithScore. rewrite Hnone. simpl.
    destruct sp; simpl; eauto.
  - intros id0 d0 Hd0 Hg0.
    destruct (highestScore_some_entry this w id0 d0 Hd0 Hg0) as [s Hs].
    destruct (firstWithScore_highest this w s Hs) as [[id d] [Hfirst [Hin Hscore]]].
    exists id, d. rewrite getMatchWinner_unfold, Hs, Hfirst. simpl.
    apply elem_of_entriesOf in Hin as [Hd Hg]. split_and!; try done.
    intros id' d' Hd' Hg'. simpl in Hscore. rewrite Hscore.
    apply Math_max_attained in Hs as [_ Hmax]. apply Hmax.
    unfold scoresOf. apply list_elem_of_In, in_map_iff. exists (id', d').
    split; [done|]. apply list_elem_of_In. by apply elem_of_entriesOf.
Qed.

Lemma getMatchWinner_none_or_maximum_witness :
  (∀ isSinglePlayer, ∃ r,
     getMatchWinner (handlerWithRounds 10) isSinglePlayer
       (worldWithLeaderboard {[ "user" := mkLeaderboard "elsewhere" 3 ]})
     = (Returned r, worldWithLeaderboard {[ "user" := mkLeaderboard "elsewhere" 3 ]})
     ∧ truthy r = false)
  ∧ (∃ id d,
       getMatchWinner (handlerWithRounds 10) false
         (worldWithLeaderboard {[ "a" := mkLeaderboard "guild" 4; "b" := mkLeaderboard "guild" 7 ]})
       = (Returned (WinnerDocument (id, d)),
          worldWithLeaderboard {[ "a" := mkLeaderboard "guild" 4; "b" := mkLeaderboard "guild" 7 ]})
       ∧ RoomLeaderboard
           (worldWithLeaderboard {[ "a" := mkLeaderboard "guild" 4; "b" := mkLeaderboard "guild" 7 ]})
           !! id = Some d
       ∧ guildId d = guildID (handlerWithRounds 10)
       ∧ ∀ id' d',
           RoomLeaderboard
             (worldWithLeaderboard {[ "a" := mkLeaderboard "guild" 4; "b" := mkLeaderboard "guild" 7 ]})
             !! id' = Some d' →
           guildId d' = guildID (handlerWithRounds 10) → score d' <= score d).
Proof.
  split.
  - apply (proj1 (getMatchWinner_none_or_maximum (handlerWithRounds 10)
             (worldWithLeaderboard {[ "user" := mkLeaderboard "elsewhere" 3 ]}))).
    intros id d H. simpl in H. apply lookup_singleton_Some in H as [_ <-]. simpl.
    discriminate.
  - apply (proj2 (getMatchWinner_none_or_maximum (handlerWithRounds 10)
             (worldWithLeaderboard {[ "a" := mkLeaderboard "guild" 4; "b" := mkLeaderboard "guild" 7 ]}))
             "a" (mkLeaderboard "guild" 4)).
    + reflexivity.
    + reflexivity.
Defined.

Example multiplayer_winner_4_7 :
  result (getMatchWinner (handlerWithRounds 10) false)
         (worldWithLeaderboard {[ "a" := mkLeaderboard "guild" 4; "b" := mkLeaderboard "guild" 7 ]})
  = Returned (WinnerDocument ("b", mkLeaderboard "guild" 7)).
Proof. vm_compute. reflexivity. Qed.

Example no_entries_values :
  result (getMatchWinner (handlerWithRounds 10) true) emptyWorld = Returned WinnerFalse
  ∧ result (getMatchWinner (handlerWithRounds 10) false) emptyWorld = Returned WinnerNull.
Proof. split; vm_compute; reflexivity. Qed.

(** ** Player mode *)

Section PlayerMode.
Variable bot : string.

Lemma others_only_bot (l : list string) : Forall (eq bot) l → othersThan bot l = [].
Proof.
  induction 1 as [|x l Hx _ IH]; [done|].
  unfold othersThan in *. by rewrite filter_cons_False by (intros H; by apply H).
Qed.

Lemma others_nil (l : list string) : othersThan bot l = [] → Forall (eq bot) l.
Proof.
  induction l as [|x l IH]; [constructor|].
  unfold othersThan in *. destruct (decide (x = bot)) as [->|Hx].
  - rewrite filter_cons_False by (intros H; by apply H). intros E.
    constructor; [done|by apply IH].
  - by rewrite filter_cons_True.
Qed.

Lemma one_other_iff (l : list string) :
  length (othersThan bot l) = 1%nat ↔ exactlyOneOtherThan bot l.
Proof.
  split.
  - induction l as [|x l IH]; [done|].
    unfold othersThan in *. destruct (decide (x = bot)) as [->|Hx].
    + rewrite filter_cons_False by (intros H; by apply H). intros Hlen.
      destruct (IH Hlen) as (before & p & after & -> & Hp & Hb & Ha).
      exists (bot :: before), p, after. split_and!; try done. by constructor.
    + rewrite filter_cons_True by done. simpl. intros [= Hlen].
      apply nil_length_inv, others_nil in Hlen.
      exists [], x, l. split_and!; try done.
  - intros (before & p & after & -> & Hp & Hb & Ha).
    unfold othersThan. rewrite filter_app, filter_cons_True by done.
    fold (othersThan bot before). fold (othersThan bot after).
    by rewrite (others_only_bot before), (others_only_bot after).
Qed.

End PlayerMode.

(** C7. A channel that is not a voice channel (type 2) makes
    [isSinglePlayer] throw the error "Invalid Channel Type"; on a voice
    channel it returns a boolean, which is [true] exactly when the channel
    holds exactly one participant other than the bot. *)
Theorem isSinglePlayer_classifies this voiceChannel :
  (channel_type voiceChannel ≠ 2 →
   isSinglePlayer this voiceChannel = Thrown (Error "Invalid Channel Type"))
  ∧ (channel_type voiceChannel = 2 →
     ∃ b, isSinglePlayer this voiceChannel = Returned b
          ∧ (b = true ↔ exactlyOneOtherThan (clientUserID this) (voiceMembers voiceChannel))).
Proof.
  unfold isSinglePlayer. split; intros Htype.
  - by rewrite bool_decide_true.
  - rewrite bool_decide_false by (intros H; by apply H).
    fold (othersThan (clientUserID this) (voiceMembers voiceChannel)).
    case_bool_decide as Hlen.
    + exists true. split; [done|]. split; [|done]. intros _. by apply one_other_iff.
    + exists false. split; [done|]. split; [done|].
      intros H. by apply one_other_iff in H.
Qed.

Lemma isSinglePlayer_classifies_witness :
  isSinglePlayer (handlerWithRounds 10) (textChannelOf ["alice"])
  = Thrown (Error "Invalid Channel Type")
  ∧ ∃ b, isSinglePlayer (handlerWithRounds 10) (voiceChannelOf ["bot"; "alice"]) = Returned b
         ∧ (b = true ↔ exactlyOneOtherThan (clientUserID (handlerWithRounds 10))
                                            (voiceMembers (voiceChannelOf ["bot"; "alice"]))).
Proof.
  split.
  - apply (proj1 (isSinglePlayer_classifies (handlerWithRounds 10) (textChannelOf ["alice"]))).
    simpl. lia.
  - apply (proj2 (isSinglePlayer_classifies (handlerWithRounds 10)
                    (voiceChannelOf ["bot"; "alice"]))).
    reflexivity.
Defined.

Example isSinglePlayer_values :
  isSinglePlayer (handlerWithRounds 10) (voiceChannelOf ["bot"; "alice"]) = Returned true
  ∧ isSinglePlayer (handlerWithRounds 10) (voiceChannelOf ["bot"; "alice"; "bob"]) = Returned false
  ∧ isSinglePlayer (handlerWithRounds 10) (voiceChannelOf ["bot"]) = Returned false.
Proof. split_and!; reflexivity. Qed.

(** ** Random element of an array *)





Example randomValueInArray_values :
  RitsuUtils.randomValueInArray (2 # 3) ["a"; "b"; "c"] = Some "c"
  ∧ RitsuUtils.randomValueInArray 0 ["a"; "b"; "c"] = Some "a"
  ∧ RitsuUtils.randomValueInArray (999 # 1000) ["a"; "b"; "c"] = Some "c".
Proof. split_and!; reflexivity. Qed.

(** ** Theme selection *)

Section ChooseTheme.
Variable getThemeByMode : nat -> Outcome (option MioSong).
Variable cache : gmap string string.

Lemma chooseTheme_refused (fuel call : nat) :
  refused cache (getThemeByMode call) = true →
  Game.chooseTheme (S fuel) getThemeByMode cache call =
  Game.chooseTheme fuel getThemeByMode cache (S call).
Proof.
  simpl. destruct (getThemeByMode call) as [[theme|]|e]; simpl; [|done|done].
  by intros ->.
Qed.

Lemma chooseTheme_skips (n fuel call : nat) :
  (∀ i, (i < n)%nat → refused cache (getThemeByMode (call + i)) = true) →
  Game.chooseTheme (n + fuel) getThemeByMode cache call =
  Game.chooseTheme fuel getThemeByMode cache (call + n).
Proof.
  revert call. induction n as [|n IH]; intros call Hskip.
  - simpl. by rewrite Nat.add_0_r.
  - pose proof (Hskip 0%nat ltac:(lia)) as H0. rewrite Nat.add_0_r in H0.
    change (S n + fuel)%nat with (S (n + fuel)). rewrite chooseTheme_refused by done.
    rewrite IH.
    + f_equal. lia.
    + intros i Hi. replace (S call + i)%nat with (call + S i)%nat by lia.
      apply Hskip. lia.
Qed.

Lemma chooseTheme_all_refused (fuel call : nat) :
  (∀ i, refused cache (getThemeByMode i) = true) →
  Game.chooseTheme fuel getThemeByMode cache call = None.
Proof.
  intros Hall. revert call. induction fuel as [|fuel IH]; intros call; [done|].
  by rewrite chooseTheme_refused.
Qed.

Lemma chooseTheme_sound (fuel call : nat) theme :
  Game.chooseTheme fuel getThemeByMode cache call = Some (Returned theme) →
  ∃ n, (n < fuel)%nat ∧ getThemeByMode (call + n) = Returned (Some theme)
       ∧ cache !! link theme = None
       ∧ ∀ i, (i < n)%nat → refused cache (getThemeByMode (call + i)) = true.
Proof.
  revert call. induction fuel as [|fuel IH]; intros call; [done|].
  destruct (refused cache (getThemeByMode call)) eqn:E.
  - rewrite chooseTheme_refused by done.
    intros H. destruct (IH _ H) as (n & Hn & Hsrc & Hfresh & Hskip).
    exists (S n). split_and!; try done.
    + lia.
    + by replace (call + S n)%nat with (S call + n)%nat by lia.
    + intros [|i] Hi; [by rewrite Nat.add_0_r|].
      replace (call + S i)%nat with (S call + i)%nat by lia. apply Hskip. lia.
  - simpl. destruct (getThemeByMode call) as [[t|]|e] eqn:Hsrc; simpl in E; [|done|done].
    rewrite E. intros [= ->]. exists 0%nat. rewrite Nat.add_0_r. split_and!; try done.
    + lia.
    + apply bool_decide_eq_false in E.
      destruct (cache !! link theme); [|done]. by destruct E.
    + lia.
Qed.

End ChooseTheme.

(** C5 (as the code has it). [chooseTheme] asks the source again for as
    long as it answers no theme or a theme whose link is in the cache. It
    returns the first candidate that is neither: if call number [n] is the
    first one not refused, [n + 1] calls are made and its theme is returned,
    or its rejection passed on; whatever is returned is such a candidate.
    There is no retry cap and no failure of its own: when every answer is
    refused it is still recursing after any number of calls. *)
Theorem chooseTheme_returns_first_acceptable
    (getThemeByMode : nat -> Outcome (option MioSong)) (cache : gmap string string) :
  (∀ n theme,
     getThemeByMode n = Returned (Some theme) → cache !! link theme = None →
     (∀ i, (i < n)%nat → refused cache (getThemeByMode i) = true) →
     ∀ fuel, (n < fuel)%nat →
       Game.chooseTheme fuel getThemeByMode cache 0 = Some (Returned theme))
  ∧ (∀ n e,
       getThemeByMode n = Thrown e →
       (∀ i, (i < n)%nat → refused cache (getThemeByMode i) = true) →
       ∀ fuel, (n < fuel)%nat →
         Game.chooseTheme fuel getThemeByMode cache 0 = Some (Thrown e))
  ∧ (∀ fuel theme,
       Game.chooseTheme fuel getThemeByMode cache 0 = Some (Returned theme) →
       ∃ n, (n < fuel)%nat ∧ getThemeByMode n = Returned (Some theme)
            ∧ cache !! link theme = None)
  ∧ ((∀ i, refused cache (getThemeByMode i) = true) →
     ∀ fuel, Game.chooseTheme fuel getThemeByMode cache 0 = None).
Proof.
  split_and!.
  - intros n theme Hsrc Hfresh Hskip fuel Hfuel.
    replace fuel with (n + S (fuel - S n))%nat by lia.
    rewrite chooseTheme_skips by (intros i Hi; by apply Hskip).
    simpl. rewrite Hsrc. by rewrite bool_decide_false by (by intros []).
  - intros n e Hsrc Hskip fuel Hfuel.
    replace fuel with (n + S (fuel - S n))%nat by lia.
    rewrite chooseTheme_skips by (intros i Hi; by apply Hskip).
    simpl. by rewrite Hsrc.
  - intros fuel theme H.
    destruct (chooseTheme_sound _ _ _ _ _ H) as (n & Hn & Hsrc & Hfresh & _).
    by exists n.
  - intros Hall fuel. by apply chooseTheme_all_refused.
Qed.

Lemma chooseTheme_returns_first_acceptable_witness :
  (∀ fuel, (2 < fuel)%nat →
     Game.chooseTheme fuel thirdTimeLucky usedCache 0 = Some (Returned freshTheme))
  ∧ (∀ fuel, (1 < fuel)%nat →
       Game.chooseTheme fuel unreachableSource usedCache 0
       = Some (Thrown (Rejected "unreachable")))
  ∧ (∀ fuel, Game.chooseTheme fuel degenerateSource usedCache 0 = None).
Proof.
  split_and!.
  - apply (proj1 (chooseTheme_returns_first_acceptable thirdTimeLucky usedCache)
             2%nat freshTheme).
    + reflexivity.
    + reflexivity.
    + intros [|[|i]] Hi; [reflexivity|reflexivity|lia].
  - apply (proj1 (proj2 (chooseTheme_returns_first_acceptable unreachableSource usedCache))
             1%nat (Rejected "unreachable")).
    + reflexivity.
    + intros [|i] Hi; [reflexivity|lia].
  - apply (proj2 (proj2 (proj2
             (chooseTheme_returns_first_acceptable degenerateSource usedCache)))).
    intros i. reflexivity.
Defined.

(** C5 as stated fails: against a source that keeps answering the same
    used theme, and against one that never has a theme, the selection has
    produced neither a theme nor a failure after any number of calls; no
    cap on the number of calls makes it settle. *)
Lemma chooseTheme_unbounded_on_degenerate_source :
  (∀ fuel, Game.chooseTheme fuel degenerateSource usedCache 0 = None)
  ∧ (∀ fuel, Game.chooseTheme fuel emptySource ∅ 0 = None)
  ∧ ¬ (∃ cap, ∀ fuel, (cap <= fuel)%nat →
         Game.chooseTheme fuel degenerateSource usedCache 0 ≠ None).
Proof.
  assert (∀ fuel call, Game.chooseTheme fuel degenerateSource usedCache call = None) as Hdeg.
  { induction fuel as [|fuel IH]; intros call; [done|]. simpl. apply IH. }
  assert (∀ fuel call, Game.chooseTheme fuel emptySource ∅ call = None) as Hnone.
  { induction fuel as [|fuel IH]; intros call; [done|]. simpl. apply IH. }
  split_and!.
  - intros fuel. apply Hdeg.
  - intros fuel. apply Hnone.
  - intros [cap Hcap]. by apply (Hcap cap).
Qed.

(** ** Clearing the session *)

Ltac async :=
  unfold bind, ret, get, modify, emit, send, lift, throw, detached, exec, result,
    setGuilds, setRooms, setUsers, setThemesCache, setLeaderboard; simpl.

Lemma withLeaderboard_same w : withLeaderboard w (RoomLeaderboard w) = w.
Proof. by destruct w. Qed.

Lemma forEach_deleteOne (l : list LeaderboardDocument) w :
  forEach l (fun board => detached (Leaderboards.deleteOne board)) w =
  (Returned tt, withLeaderboard w (deleteAll l (RoomLeaderboard w))).
Proof.
  revert w. induction l as [|b l IH]; intros w; simpl.
  - by rewrite withLeaderboard_same.
  - unfold bind at 1. unfold detached at 1. rewrite IH.
    unfold Leaderboards.deleteOne. async. reflexivity.
Qed.

Lemma lookup_deleteAll (l : list LeaderboardDocument) (m : gmap string RoomLeaderboardData) k :
  deleteAll l m !! k = if decide (k ∈ l.*1) then None else m !! k.
Proof.
  revert m. induction l as [|b l IH]; intros m.
  - destruct (decide _) as [H|_]; [by apply elem_of_nil in H|done].
  - change (deleteAll (b :: l) m) with (deleteAll l (delete b.1 m)). rewrite IH.
    rewrite fmap_cons.
    destruct (decide (k ∈ l.*1)) as [Hin|Hnin].
    + rewrite decide_True; [done|]. by right.
    + destruct (decide (k = b.1)) as [->|Hne].
      * rewrite decide_True by left. apply lookup_delete_eq.
      * rewrite decide_False by (intros [?|?]%elem_of_cons; done).
        by rewrite lookup_delete_ne.
Qed.

Lemma deleteAll_entriesOf g (m : gmap string RoomLeaderboardData) :
  deleteAll (entriesOf g m) m = withoutGuild g m.
Proof.
  apply map_eq. intros k. rewrite lookup_deleteAll. unfold withoutGuild.
  apply option_eq. intros d. rewrite map_lookup_filter_Some. simpl.
  destruct (decide (k ∈ (entriesOf g m).*1)) as [Hin|Hnin].
  - apply list_elem_of_fmap in Hin as [[k' d'] [-> [Hd' Hg]%elem_of_entriesOf]].
    simpl. split; [done|]. intros [Hd Hne]. congruence.
  - split; [|tauto]. intros Hd. split; [done|]. intros Hg. apply Hnin.
    apply list_elem_of_fmap. exists (k, d). split; [done|]. by apply elem_of_entriesOf.
Qed.

Lemma clearData_unfold this room guild w :
  clearData this room guild w = (Returned tt, cleared this room guild w).
Proof.
  unfold clearData, Leaderboards.find. unfold bind at 1. unfold get at 1.
  unfold bind at 1. unfold setThemesCache at 1, modify at 1.
  unfold bind at 1. rewrite forEach_deleteOne.
  unfold GuildsCollection.save, RoomsCollection.deleteOne. async.
  unfold cleared. by rewrite deleteAll_entriesOf.
Qed.

Lemma withoutGuild_idemp g (m : gmap string RoomLeaderboardData) :
  withoutGuild g (withoutGuild g m) = withoutGuild g m.
Proof.
  unfold withoutGuild. rewrite map_filter_filter. apply map_filter_ext.
  intros k d _. simpl. tauto.
Qed.

Lemma entriesOf_withoutGuild g (m : gmap string RoomLeaderboardData) :
  entriesOf g (withoutGuild g m) = [].
Proof.
  apply entriesOf_nil. intros id d H. unfold withoutGuild in H.
  by apply map_lookup_filter_Some in H as [_ Hne].
Qed.

(** C9. [clearData] returns without a fault and leaves the world with the
    room deleted, every leaderboard entry of the guild deleted (the other
    entries untouched), the guild saved with [rolling = false] and the theme
    cache empty. Invoked again on the world it left, it returns without a
    fault and leaves that world as it is. *)
Theorem clearData_idempotent this room guild w :
  clearData this room guild w = (Returned tt, cleared this room guild w)
  ∧ Rooms (cleared this room guild w) !! fst room = None
  ∧ entriesOf (guildID this) (RoomLeaderboard (cleared this room guild w)) = []
  ∧ RoomLeaderboard (cleared this room guild w) = withoutGuild (guildID this) (RoomLeaderboard w)
  ∧ rolling <$> Guilds (cleared this room guild w) !! fst guild = Some false
  ∧ clearData this room guild (cleared this room guild w)
    = (Returned tt, cleared this room guild w).
Proof.
  split_and!.
  - apply clearData_unfold.
  - simpl. apply lookup_delete_eq.
  - simpl. apply entriesOf_withoutGuild.
  - reflexivity.
  - simpl. by rewrite lookup_insert_eq.
  - rewrite clearData_unfold. f_equal. unfold cleared; simpl.
    by rewrite insert_insert_eq, delete_delete_eq, withoutGuild_idemp.
Qed.

(** ** Forced stop *)

Lemma handleFinish_forced this room voiceChannelID isSinglePlayer w :
  handleFinish this room voiceChannelID isSinglePlayer true w =
  (Returned tt, exec (emit (leaveVoiceChannel (Some voiceChannelID))) w).
Proof. reflexivity. Qed.

(** C2 (as the code has it). When the answer collector ends with the
    reason [forceFinished], whatever the state and the moment: the only
    effect is that the bot leaves the voice channel, so that no reveal or
    answer message is produced and no winner is computed, announced or
    rewarded; then all session data is cleared (room and leaderboard
    entries of the guild deleted, [rolling] false, theme cache empty) and
    no round follows. *)
Theorem forced_stop_resolution this next c w :
  answerCollectorEnd this next c forceFinished w =
  (Returned Finished,
   cleared this (ctx_room c) (ctx_guild c)
           (exec (emit (leaveVoiceChannel (Some (ctx_voiceChannelID c)))) w))
  ∧ effects (exec (answerCollectorEnd this next c forceFinished) w) =
    (effects w ++ [leaveVoiceChannel (Some (ctx_voiceChannelID c))])%list
  ∧ Rooms (exec (answerCollectorEnd this next c forceFinished) w) !! fst (ctx_room c) = None
  ∧ entriesOf (guildID this)
      (RoomLeaderboard (exec (answerCollectorEnd this next c forceFinished) w)) = []
  ∧ rolling <$> Guilds (exec (answerCollectorEnd this next c forceFinished) w)
                  !! fst (ctx_guild c) = Some false
  ∧ themesCache (exec (answerCollectorEnd this next c forceFinished) w) = ∅.
Proof.
  assert (answerCollectorEnd this next c forceFinished w =
          (Returned Finished,
           cleared this (ctx_room c) (ctx_guild c)
                   (exec (emit (leaveVoiceChannel (Some (ctx_voiceChannelID c)))) w))) as E.
  { unfold answerCollectorEnd. unfold bind at 1. rewrite handleFinish_forced.
    unfold bind at 1. by rewrite clearData_unfold. }
  split; [exact E|].
  replace (exec (answerCollectorEnd this next c forceFinished) w)
    with (cleared this (ctx_room c) (ctx_guild c)
            (exec (emit (leaveVoiceChannel (Some (ctx_voiceChannelID c)))) w))
    by (symmetry; unfold exec at 1; by rewrite E).
  simpl. split_and!; try done.
  - apply lookup_delete_eq.
  - apply entriesOf_withoutGuild.
  - by rewrite lookup_insert_eq.
Qed.

(** C2 as stated fails: with alice leading the leaderboard, final handling
    without force finds her and congratulates her, while the forced stop on
    the same state only leaves the voice channel: no winner is computed. *)
Lemma forced_stop_computes_no_winner :
  result (getMatchWinner (handlerWithRounds 3) false) (sampleWorld 2)
  = Returned (WinnerDocument ("alice", mkLeaderboard "guild" 7))
  ∧ effects (exec (handleFinish (handlerWithRounds 3) (sampleRoom 2) "voice" false false)
                  (sampleWorld 2))
    = [createMessage (Congrats "alice" 10); leaveVoiceChannel (Some "voice")]
  ∧ effects (exec (answerCollectorEnd (handlerWithRounds 3) goodInputs (sampleContext 2)
                                      forceFinished) (sampleWorld 2))
    = [leaveVoiceChannel (Some "voice")].
Proof. split_and!; vm_compute; reflexivity. Qed.

(** ** Round start *)

Lemma handleRoom_unfold this sp w :
  handleRoom this sp w =
  (Returned (guildID this, nextRoom this sp (Rooms w !! guildID this)),
   exec (setRooms (insert (guildID this) (nextRoom this sp (Rooms w !! guildID this)))) w).
Proof.
  unfold handleRoom, RoomsCollection.findById, RoomsCollection.save. async.
  by destruct (Rooms w !! guildID this).
Qed.

Section StreamFailure.
Variables (this : GameHandler) (x : RoundInputs).
Variables (voiceChannelID : string) (voiceChannel : AnyGuildChannel).
Variables (sp : bool) (theme : MioSong).
Hypothesis in_voice : voiceStateChannelID this = Some voiceChannelID.
Hypothesis channel_known : guildChannels this !! voiceChannelID = Some voiceChannel.
Hypothesis mode_known : isSinglePlayer this voiceChannel = Returned sp.
Hypothesis theme_found : themeLookup x = Returned theme.
Hypothesis stream_fails : streamLookup x = None.

Lemma startNewRound_stream_failure guild w :
  startNewRound this x guild w = (Thrown (streamError this), afterStreamFailure this sp theme w).
Proof.
  unfold startNewRound. rewrite in_voice, channel_known.
  unfold bind at 1. unfold lift at 1.
  unfold bind at 1. unfold lift at 1. rewrite mode_known.
  unfold bind at 1. rewrite handleRoom_unfold.
  unfold getTheme. rewrite theme_found, stream_fails.
  unfold afterStreamFailure, openingEmbed, streamError. simpl.
  case_bool_decide; async; reflexivity.
Qed.

Lemma initGame_stream_failure w g :
  Guilds w !! guildID this = Some g →
  initGame this x w =
  (Returned None, exec (emit (handleError (streamError this))) (afterStreamFailure this sp theme w)).
Proof.
  intros Hg. unfold initGame, GuildsCollection.findById. unfold bind, get.
  rewrite Hg. simpl. by rewrite startNewRound_stream_failure.
Qed.

End StreamFailure.

(** Stream failure, as the code has it. When the requester is in a voice
    channel, the theme is found and its stream cannot be resolved,
    [startNewRound] throws the error "unable to load stream", and
    [initGame] hands it to [handleError]. The guild document is not saved,
    so [rolling] is not set, and leaderboard and users are untouched. The
    room handler has run before the stream is resolved: the room of the
    guild is persisted, created at round 1 or advanced by one round with
    its answerers reset; the theme is in the cache and the opening embed
    was sent. *)
Theorem stream_failure_keeps_rolling_unset
    this x guild voiceChannelID voiceChannel sp theme w :
  voiceStateChannelID this = Some voiceChannelID →
  guildChannels this !! voiceChannelID = Some voiceChannel →
  isSinglePlayer this voiceChannel = Returned sp →
  themeLookup x = Returned theme →
  streamLookup x = None →
  startNewRound this x guild w = (Thrown (streamError this), afterStreamFailure this sp theme w)
  ∧ Guilds (exec (startNewRound this x guild) w) = Guilds w
  ∧ RoomLeaderboard (exec (startNewRound this x guild) w) = RoomLeaderboard w
  ∧ Users (exec (startNewRound this x guild) w) = Users w
  ∧ Rooms (exec (startNewRound this x guild) w) =
    <[guildID this := nextRoom this sp (Rooms w !! guildID this)]> (Rooms w)
  ∧ match Guilds w !! guildID this with
    | Some g =>
        result (initGame this x) w = Returned None
        ∧ last (effects (exec (initGame this x) w)) = Some (handleError (streamError this))
    | None => initGame this x w = (Returned None, w)
    end.
Proof.
  intros Hv Hc Hm Ht Hs.
  pose proof (startNewRound_stream_failure this x voiceChannelID voiceChannel sp theme
                Hv Hc Hm Ht Hs guild w) as E.
  unfold exec. rewrite E. simpl. split_and!; try done.
  destruct (Guilds w !! guildID this) as [g|] eqn:Hg.
  - unfold result.
    rewrite (initGame_stream_failure this x voiceChannelID voiceChannel sp theme
               Hv Hc Hm Ht Hs w g Hg).
    simpl. split_and!; try done. by rewrite last_snoc.
  - unfold initGame, GuildsCollection.findById, bind, get. by rewrite Hg.
Qed.

Lemma stream_failure_keeps_rolling_unset_witness :
  startNewRound (handlerWithRounds 3) noStream ("guild", mkGuild "!" false) idleWorld
  = (Thrown (streamError (handlerWithRounds 3)),
     afterStreamFailure (handlerWithRounds 3) false freshTheme idleWorld)
  ∧ Guilds (exec (startNewRound (handlerWithRounds 3) noStream ("guild", mkGuild "!" false))
                 idleWorld) = Guilds idleWorld.
Proof.
  pose proof (stream_failure_keeps_rolling_unset (handlerWithRounds 3) noStream
                ("guild", mkGuild "!" false) "voice" (mkChannel 2 ["bot"; "alice"; "bob"])
                false freshTheme idleWorld
                eq_refl eq_refl eq_refl eq_refl eq_refl) as H.
  split; [exact (proj1 H) | exact (proj1 (proj2 H))].
Defined.

(** What the room handler persisted stays: for any room handler, a round
    start whose stream cannot be resolved throws and leaves in storage
    exactly what the room handler left there; nothing is rolled back and
    the guild is not saved. *)
Lemma startNewRound_room_handler this x guild :
  startNewRound this x guild = startNewRoundWith (handleRoom this) this x guild.
Proof. reflexivity. Qed.

Lemma startNewRoundWith_stream_failure
    roomHandler this x guild voiceChannelID voiceChannel sp theme room w wH :
  voiceStateChannelID this = Some voiceChannelID →
  guildChannels this !! voiceChannelID = Some voiceChannel →
  isSinglePlayer this voiceChannel = Returned sp →
  roomHandler sp w = (Returned room, wH) →
  themeLookup x = Returned theme →
  streamLookup x = None →
  result (startNewRoundWith roomHandler this x guild) w = Thrown (streamError this)
  ∧ persisted (exec (startNewRoundWith roomHandler this x guild) w) = persisted wH.
Proof.
  intros Hv Hc Hm HH Ht Hs.
  assert (∃ w', startNewRoundWith roomHandler this x guild w = (Thrown (streamError this), w')
                ∧ persisted w' = persisted wH) as (w' & E & P).
  { unfold startNewRoundWith. rewrite Hv, Hc.
    unfold bind at 1. unfold lift at 1.
    unfold bind at 1. unfold lift at 1. rewrite Hm.
    unfold bind at 1. rewrite HH.
    unfold getTheme. rewrite Ht, Hs.
    destruct (bool_decide _); async; eexists; split; reflexivity. }
  unfold result, exec. by rewrite E.
Qed.


(** ** Natural timeout *)

Lemma noRoundStarted_same w w' : effects w' = effects w → noRoundStarted w w'.
Proof. intros E. exists []. by rewrite app_nil_r. Qed.

Lemma noRoundStarted_refl w : noRoundStarted w w.
Proof. by apply noRoundStarted_same. Qed.

Lemma noRoundStarted_trans w1 w2 w3 :
  noRoundStarted w1 w2 → noRoundStarted w2 w3 → noRoundStarted w1 w3.
Proof.
  intros (e1 & H1 & F1) (e2 & H2 & F2). exists (e1 ++ e2)%list.
  split; [by rewrite H2, H1, app_assoc | by apply Forall_app].
Qed.

Lemma steady_refl w : steady w w.
Proof. unfold steady. split_and!; auto using noRoundStarted_refl. Qed.

Lemma steady_trans w1 w2 w3 : steady w1 w2 → steady w2 w3 → steady w1 w3.
Proof.
  intros (G1 & R1 & L1 & U1 & N1) (G2 & R2 & L2 & U2 & N2).
  unfold steady. split_and!; try congruence. by eapply noRoundStarted_trans.
Qed.

Lemma steady_emit e w : startsRound e = false → steady w (exec (emit e) w).
Proof.
  intros He. unfold steady. split_and!; try done. exists [e]. split; [done|]. by constructor.
Qed.

Lemma exec_detached (m : Async unit) w : exec (detached m) w = exec m w.
Proof. reflexivity. Qed.

Lemma steady_bumpScore id w : steady w (exec (detached (bumpScore id)) w).
Proof.
  rewrite exec_detached, bumpScore_exec. unfold steady. split_and!; simpl; try done.
  - apply dom_alter_L.
  - by apply noRoundStarted_same.
Qed.

Lemma steady_handleLevel this id w : steady w (exec (detached (handleLevel this id)) w).
Proof.
  unfold detached, exec, handleLevel, User.findById, User.save. async.
  destruct (Users w !! id) as [u|] eqn:E; simpl; [|apply steady_refl].
  assert (dom (<[id := mkUser (xp u + stats_xp (handleLevelByMode this id (mode (gameOptions this))))
                                 (level u)]> (Users w)) = dom (Users w)) as Hdom.
  { rewrite dom_insert_L. apply subseteq_union_1_L, singleton_subseteq_l.
    by eapply elem_of_dom_2. }
  destruct (bool_decide _); simpl; unfold steady; split_and!; simpl; try done.
  - eexists [_]. split; [done|]. by constructor.
  - by apply noRoundStarted_same.
Qed.

Lemma forEach_steady {A} (l : list A) (f : A → Async unit) :
  (∀ x w, ∃ w', f x w = (Returned tt, w') ∧ steady w w') →
  ∀ w, ∃ w', forEach l f w = (Returned tt, w') ∧ steady w w'.
Proof.
  intros Hf. induction l as [|x l IH]; intros w; simpl.
  - exists w. split; [done|apply steady_refl].
  - destruct (Hf x w) as (w1 & E1 & S1). destruct (IH w1) as (w2 & E2 & S2).
    exists w2. unfold bind. rewrite E1, E2. split; [done|]. by eapply steady_trans.
Qed.

Lemma revealAndScore_steady this c w :
  ∃ w', revealAndScore this c w = (Returned tt, w') ∧ steady w w'.
Proof.
  unfold revealAndScore.
  set (m1 := Text "The answer is...").
  set (m2 := Embed _). set (m3 := Text _).
  set (w3 := exec (send m3) (exec (send m2) (exec (send m1) w))).
  destruct (forEach_steady (answerers (ctx_room c).2)
              (fun id => run detached (bumpScore id); detached (handleLevel this id))) with (w := w3)
    as (w4 & E4 & S4).
  { intros id v. eexists. split; [reflexivity|].
    eapply steady_trans; [apply (steady_bumpScore id)|]. apply steady_handleLevel. }
  exists w4. split.
  - unfold bind, send, emit, modify. simpl. exact E4.
  - eapply steady_trans; [|exact S4].
    eapply steady_trans; [apply (steady_emit (createMessage m1)); done|].
    eapply steady_trans; [apply (steady_emit (createMessage m2)); done|].
    apply (steady_emit (createMessage m3)); done.
Qed.

Lemma firstWithScore_known (g : string) s (m : gmap string RoomLeaderboardData) d :
  firstWithScore g s m = Some d → m !! fst d = Some (snd d).
Proof.
  unfold firstWithScore. intros H.
  apply head_Some_elem_of, list_elem_of_filter in H as [_ H].
  destruct d as [id d]. by apply elem_of_entriesOf in H as [H _].
Qed.

Lemma handleFinish_unforced this room voiceChannelID sp w :
  usersKnown w →
  handleFinish this room voiceChannelID sp false w =
  (Returned tt,
   logged (winnerAnnouncement this sp w ++ [leaveVoiceChannel (Some voiceChannelID)]) w).
Proof.
  intros Hknown. unfold handleFinish, winnerAnnouncement, result. simpl.
  unfold bind at 1. unfold bind at 1. rewrite getMatchWinner_unfold. simpl.
  destruct (sp && _); [reflexivity|].
  destruct (firstWithScore _ _ _) as [d|] eqn:E; [|reflexivity].
  apply firstWithScore_known in E.
  assert (is_Some (Users w !! d.1)) as [u Hu].
  { apply elem_of_dom, Hknown, elem_of_dom. by eexists. }
  unfold User.findById. async. rewrite Hu. simpl. unfold logged. simpl.
  unfold modify. simpl. by rewrite <- app_assoc.
Qed.


Lemma startNewRound_rooms this x guild voiceChannelID voiceChannel sp w :
  voiceStateChannelID this = Some voiceChannelID →
  guildChannels this !! voiceChannelID = Some voiceChannel →
  isSinglePlayer this voiceChannel = Returned sp →
  Rooms (exec (startNewRound this x guild) w) =
  <[guildID this := nextRoom this sp (Rooms w !! guildID this)]> (Rooms w).
Proof.
  intros Hv Hc Hm. unfold exec, startNewRound. rewrite Hv, Hc.
  unfold bind at 1. unfold lift at 1.
  unfold bind at 1. unfold lift at 1. rewrite Hm.
  unfold bind at 1. rewrite handleRoom_unfold.
  unfold getTheme, User.findById.
  destruct (themeLookup x), (streamLookup x), (animeDataLookup x);
    async; destruct (bool_decide _); reflexivity.
Qed.

Lemma newEffects_logged es w : newEffects w (logged es w) = es.
Proof. unfold newEffects, logged. simpl. by rewrite drop_app_length. Qed.

Lemma noRoundStarted_newEffects w w' :
  noRoundStarted w w' → Forall (fun e => startsRound e = false) (newEffects w w').
Proof. intros (ext & E & F). unfold newEffects. by rewrite E, drop_app_length. Qed.

Lemma newEffects_trans w1 w2 w3 e :
  noRoundStarted w1 w2 → (∃ ext, effects w3 = (effects w2 ++ ext)%list ∧ e ∈ ext) →
  e ∈ newEffects w1 w3.
Proof.
  intros (ext1 & E1 & _) (ext2 & E2 & Hin). unfold newEffects.
  rewrite E2, E1, <- app_assoc, drop_app_length. apply elem_of_app. by right.
Qed.




Lemma sampleWorld_usersKnown n : usersKnown (sampleWorld n).
Proof.
  unfold usersKnown, sampleWorld. simpl.
  rewrite !dom_insert_L, !dom_singleton_L.
  apply union_mono_l, union_subseteq_l.
Qed.



Example three_rounds_then_finished :
  result (answerCollectorEnd (handlerWithRounds 3) goodInputs (sampleContext 3) timeLimit)
         (sampleWorld 3) = Returned Finished
  ∧ Rooms (exec (answerCollectorEnd (handlerWithRounds 3) goodInputs (sampleContext 3)
                                    timeLimit) (sampleWorld 3)) = ∅
  ∧ Guilds (exec (answerCollectorEnd (handlerWithRounds 3) goodInputs (sampleContext 3)
                                     timeLimit) (sampleWorld 3))
    = {[ "guild" := mkGuild "!" false ]}
  ∧ forallb (fun e => negb (startsRound e))
      (newEffects (sampleWorld 3)
         (exec (answerCollectorEnd (handlerWithRounds 3) goodInputs (sampleContext 3)
                  timeLimit) (sampleWorld 3))) = true.
Proof.
  split_and!; vm_compute; reflexivity.
Qed.

(** * Further properties of the handler *)

(** ** Round start *)

Lemma startNewRound_cases this x guild w :
  RoomLeaderboard (exec (startNewRound this x guild) w) = RoomLeaderboard w
  ∧ Users (exec (startNewRound this x guild) w) = Users w
  ∧ match result (startNewRound this x guild) w with
    | Returned (Started c) =>
        Guilds (exec (startNewRound this x guild) w) =
        <[fst guild := snd (rollingGuild guild)]> (Guilds w)
        ∧ ctx_guild c = rollingGuild guild
        ∧ voiceStateChannelID this = Some (ctx_voiceChannelID c)
        ∧ Rooms (exec (startNewRound this x guild) w) !! guildID this = Some (snd (ctx_room c))
    | _ => Guilds (exec (startNewRound this x guild) w) = Guilds w
    end.
Proof.
  unfold exec, result.
  destruct (startNewRound this x guild w) as [o w'] eqn:E. simpl.
  unfold startNewRound in E.
  destruct (voiceStateChannelID this) as [vc|].
  - destruct (guildChannels this !! vc) as [ch|];
      [|revert E; async; intros [= <- <-]; split_and!; reflexivity].
    unfold bind at 1 in E. unfold lift at 1 in E.
    unfold bind at 1 in E. unfold lift at 1 in E.
    destruct (isSinglePlayer this ch) as [sp|e];
      [|revert E; async; intros [= <- <-]; split_and!; reflexivity].
    unfold bind at 1 in E. rewrite handleRoom_unfold in E.
    unfold getTheme, User.findById, GuildsCollection.save, rollingGuild in *.
    revert E.
    destruct (themeLookup x), (streamLookup x), (animeDataLookup x);
      async; destruct (bool_decide _); simpl; intros [= <- <-]; split_and!;
      try reflexivity; apply lookup_insert_eq.
  - revert E. unfold RoomsCollection.exists_. async.
    destruct (bool_decide _); intros [= <- <-]; split_and!; reflexivity.
Qed.

(** X1. [startNewRound] never touches the leaderboard or the users, and it
    saves the guild, with [rolling] true, exactly when it returns a started
    round; when it returns without starting or throws, the guilds are as
    they were. A started round is on the requester's voice channel and its
    room is the one stored for the guild. *)
Theorem startNewRound_sets_rolling_only_on_start this x guild w :
  RoomLeaderboard (exec (startNewRound this x guild) w) = RoomLeaderboard w
  ∧ Users (exec (startNewRound this x guild) w) = Users w
  ∧ match result (startNewRound this x guild) w with
    | Returned (Started c) =>
        rolling <$> Guilds (exec (startNewRound this x guild) w) !! fst guild = Some true
        ∧ rolling (snd (ctx_guild c)) = true
        ∧ voiceStateChannelID this = Some (ctx_voiceChannelID c)
        ∧ Rooms (exec (startNewRound this x guild) w) !! guildID this = Some (snd (ctx_room c))
    | _ => Guilds (exec (startNewRound this x guild) w) = Guilds w
    end.
Proof.
  destruct (startNewRound_cases this x guild w) as (HL & HU & H).
  split_and!; try done.
  destruct (result (startNewRound this x guild) w) as [[|c]|e]; try done.
  destruct H as (HG & Hc & Hv & HR). rewrite HG, Hc. split_and!; try done.
  by rewrite lookup_insert_eq.
Qed.

(** X2. A requester whose voice channel is unknown to the client, or is
    not a voice channel (type 2), makes [startNewRound] throw before
    anything is written or sent: the world is exactly as it was. *)
Theorem startNewRound_rejects_other_channels this x guild voiceChannelID w :
  voiceStateChannelID this = Some voiceChannelID →
  (guildChannels this !! voiceChannelID = None →
   startNewRound this x guild w = (Thrown TypeError, w))
  ∧ (∀ voiceChannel,
       guildChannels this !! voiceChannelID = Some voiceChannel →
       channel_type voiceChannel ≠ 2 →
       startNewRound this x guild w = (Thrown (Error "Invalid Channel Type"), w)).
Proof.
  intros Hv. unfold startNewRound. rewrite Hv. split.
  - by intros ->.
  - intros ch -> Hty. unfold bind at 1. unfold lift at 1.
    unfold bind at 1. unfold lift at 1. unfold isSinglePlayer.
    by rewrite bool_decide_true.
Qed.

Lemma startNewRound_rejects_other_channels_witness :
  startNewRound (mkHandler "guild" "author" "channel" (Some "lobby") "bot" ∅
                           (mkOptions 3 30000 "normal") (fun key _ => key)
                           (fun _ _ => mkStats 10 1))
                goodInputs sampleGuild idleWorld = (Thrown TypeError, idleWorld)
  ∧ startNewRound (mkHandler "guild" "author" "channel" (Some "lobby") "bot"
                             {[ "lobby" := textChannelOf ["alice"] ]}
                             (mkOptions 3 30000 "normal") (fun key _ => key)
                             (fun _ _ => mkStats 10 1))
                  goodInputs sampleGuild idleWorld
    = (Thrown (Error "Invalid Channel Type"), idleWorld).
Proof.
  split.
  - apply (proj1 (startNewRound_rejects_other_channels
                    (mkHandler "guild" "author" "channel" (Some "lobby") "bot" ∅
                               (mkOptions 3 30000 "normal") (fun key _ => key)
                               (fun _ _ => mkStats 10 1))
                    goodInputs sampleGuild "lobby" idleWorld eq_refl)).
    reflexivity.
  - apply (proj2 (startNewRound_rejects_other_channels
                    (mkHandler "guild" "author" "channel" (Some "lobby") "bot"
                               {[ "lobby" := textChannelOf ["alice"] ]}
                               (mkOptions 3 30000 "normal") (fun key _ => key)
                               (fun _ _ => mkStats 10 1))
                    goodInputs sampleGuild "lobby" idleWorld eq_refl)
             (textChannelOf ["alice"])).
    + reflexivity.
    + simpl. lia.
Defined.

(** X3. When the requester is in a voice channel, the theme, its stream
    and its metadata are all found, [startNewRound] returns a started round
    whose context holds the room, the guild with [rolling] true, the voice
    channel, the mode and the theme. It leaves the room stored (created at
    round 1 or advanced by one), the theme in the cache and the guild saved
    with [rolling] true, having sent the opening embed, then the
    round-started embed with the room's round number, then started the
    playback on the requester's voice channel. *)
Theorem startNewRound_success this x guild voiceChannelID voiceChannel sp theme stream
    animeData w :
  voiceStateChannelID this = Some voiceChannelID →
  guildChannels this !! voiceChannelID = Some voiceChannel →
  isSinglePlayer this voiceChannel = Returned sp →
  themeLookup x = Returned theme →
  streamLookup x = Some stream →
  animeDataLookup x = Returned animeData →
  startNewRound this x guild w =
  (Returned (Started (mkContext (guildID this, nextRoom this sp (Rooms w !! guildID this))
                                (rollingGuild guild) voiceChannelID sp theme animeData)),
   mkWorld (<[fst guild := snd (rollingGuild guild)]> (Guilds w))
           (<[guildID this := nextRoom this sp (Rooms w !! guildID this)]> (Rooms w))
           (RoomLeaderboard w) (Users w)
           (<[link theme := guildID this]> (themesCache w))
           (effects w ++
              [createMessage (Embed (openingEmbed (nextRoom this sp (Rooms w !! guildID this))));
               createMessage (Embed (roundStarted
                                       (currentRound (nextRoom this sp (Rooms w !! guildID this)))));
               playTheme voiceChannelID stream])).
Proof.
  intros Hv Hc Hm Ht Hs Ha. unfold startNewRound. rewrite Hv, Hc.
  unfold bind at 1. unfold lift at 1.
  unfold bind at 1. unfold lift at 1. rewrite Hm.
  unfold bind at 1. rewrite handleRoom_unfold.
  unfold getTheme, User.findById, GuildsCollection.save, rollingGuild, openingEmbed.
  rewrite Ht, Hs, Ha. async.
  destruct (bool_decide _); simpl; by rewrite <- !app_assoc.
Qed.

Lemma startNewRound_success_witness :
  startNewRound (handlerWithRounds 3) goodInputs ("guild", mkGuild "!" false) idleWorld =
  (Returned (Started (mkContext ("guild", mkRoom [] "channel" "author" 1 false)
                                ("guild", mkGuild "!" true) "voice" false freshTheme
                                "Fresh (anime)")),
   mkWorld {[ "guild" := mkGuild "!" true ]}
           {[ "guild" := mkRoom [] "channel" "author" 1 false ]}
           ∅ {[ "author" := mkUser 0 1 ]}
           {[ link freshTheme := "guild" ]}
           [createMessage (Embed preparingMatch);
            createMessage (Embed (roundStarted 1));
            playTheme "voice" "stream"]).
Proof.
  rewrite (startNewRound_success (handlerWithRounds 3) goodInputs ("guild", mkGuild "!" false)
             "voice" (mkChannel 2 ["bot"; "alice"; "bob"]) false freshTheme "stream"
             "Fresh (anime)" idleWorld eq_refl eq_refl eq_refl eq_refl eq_refl eq_refl).
  vm_compute. reflexivity.
Defined.

(** X4. [initGame], the guild's document being read: for a guild without
    a document it does nothing at all; a round start that returns is passed
    on as it is; a fault thrown by the round start is caught and handed to
    [handleError], after whatever the round start had already sent. *)
Theorem initGame_hands_faults_to_handleError this x w :
  (Guilds w !! guildID this = None → initGame this x w = (Returned None, w))
  ∧ (∀ g r,
       Guilds w !! guildID this = Some g →
       result (startNewRound this x (guildID this, g)) w = Returned r →
       initGame this x w =
       (Returned (Some r), exec (startNewRound this x (guildID this, g)) w))
  ∧ (∀ g e,
       Guilds w !! guildID this = Some g →
       result (startNewRound this x (guildID this, g)) w = Thrown e →
       result (initGame this x) w = Returned None
       ∧ effects (exec (initGame this x) w) =
         (effects (exec (startNewRound this x (guildID this, g)) w) ++ [handleError e])%list).
Proof.
  unfold initGame, GuildsCollection.findById, result, exec, bind, get. simpl.
  destruct (Guilds w !! guildID this) as [g|]; simpl.
  - split_and!; try done.
    + intros ? r [= <-].
      destruct (startNewRound this x (guildID this, g) w) as [[r'|e] w']; simpl; [|done].
      by intros [= ->].
    + intros ? e [= <-].
      destruct (startNewRound this x (guildID this, g) w) as [[r|e'] w']; simpl; [done|].
      by intros [= ->].
  - split_and!; eauto; done.
Qed.

Lemma initGame_hands_faults_to_handleError_witness :
  initGame (handlerWithRounds 3) goodInputs emptyWorld = (Returned None, emptyWorld)
  ∧ (result (initGame (handlerWithRounds 3) noStream) idleWorld = Returned None
     ∧ effects (exec (initGame (handlerWithRounds 3) noStream) idleWorld) =
       (effects (exec (startNewRound (handlerWithRounds 3) noStream
                                     ("guild", mkGuild "!" false)) idleWorld)
          ++ [handleError (Error "game:errors.unableToLoadStream")])%list).
Proof.
  split.
  - apply (proj1 (initGame_hands_faults_to_handleError (handlerWithRounds 3) goodInputs
                    emptyWorld)).
    reflexivity.
  - apply (proj2 (proj2 (initGame_hands_faults_to_handleError (handlerWithRounds 3) noStream
                           idleWorld))
             (mkGuild "!" false) (Error "game:errors.unableToLoadStream")).
    + reflexivity.
    + vm_compute. reflexivity.
Defined.


(** ** Round end *)

Lemma forEach_total {A} (l : list A) (f : A → Async unit) w :
  (∀ x v, result (f x) v = Returned tt) →
  forEach l f w = (Returned tt, foldl (fun v x => exec (f x) v) w l).
Proof.
  intros Hf. revert w. induction l as [|x l IH]; intros w; simpl; [done|].
  unfold bind. specialize (Hf x w). unfold result, exec in *.
  destruct (f x w) as [o v]. simpl in *. subst o. apply IH.
Qed.

Lemma handleLevel_exec this id w :
  exec (handleLevel this id) w =
  match Users w !! id with
  | None => w
  | Some u =>
      mkWorld (Guilds w) (Rooms w) (RoomLeaderboard w)
              (<[id := mkUser (xp u + xpOf this id) (level u)]> (Users w))
              (themesCache w)
              (effects w ++
                 if bool_decide (stats_level (handleLevelByMode this id (mode (gameOptions this)))
                                 ≠ level u)
                 then [createMessage (LevelUp id (stats_level
                                        (handleLevelByMode this id (mode (gameOptions this)))))]
                 else [])
  end.
Proof.
  unfold handleLevel, User.findById, User.save, xpOf. async.
  destruct (Users w !! id) as [u|]; simpl; [|done].
  destruct (bool_decide _); simpl; [done|].
  rewrite app_nil_r. reflexivity.
Qed.

Lemma scoreAnswerer_exec this id w :
  let v := exec (scoreAnswerer this id) w in
  Guilds v = Guilds w ∧ Rooms v = Rooms w ∧ themesCache v = themesCache w
  ∧ RoomLeaderboard v = alter (addScore 1) id (RoomLeaderboard w)
  ∧ Users v = alter (fun u => mkUser (xp u + xpOf this id) (level u)) id (Users w)
  ∧ ∃ ext, effects v = (effects w ++ ext)%list ∧ Forall (fun e => isLevelUp e = true) ext.
Proof.
  unfold scoreAnswerer. simpl.
  change (exec (run detached (bumpScore id); detached (handleLevel this id)) w)
    with (exec (handleLevel this id) (exec (bumpScore id) w)).
  rewrite handleLevel_exec, bumpScore_exec. simpl.
  destruct (Users w !! id) as [u|] eqn:E; simpl.
  - split_and!; try done.
    + apply map_eq. intros k. destruct (decide (id = k)) as [->|Hne].
      * by rewrite lookup_insert_eq, lookup_alter_eq, E.
      * by rewrite lookup_insert_ne, lookup_alter_ne.
    + eexists. split; [done|]. destruct (bool_decide _); repeat constructor.
  - split_and!; try done.
    + apply map_eq. intros k. destruct (decide (id = k)) as [->|Hne].
      * by rewrite lookup_alter_eq, E.
      * by rewrite lookup_alter_ne.
    + exists []. by rewrite app_nil_r.
Qed.

Lemma occurrences_cons_eq id ids : occurrences id (id :: ids) = 1 + occurrences id ids.
Proof. unfold occurrences. rewrite filter_cons_True by done. simpl length. lia. Qed.

Lemma occurrences_cons_ne id x ids : x ≠ id → occurrences id (x :: ids) = occurrences id ids.
Proof. intros H. unfold occurrences. by rewrite filter_cons_False. Qed.

Lemma afterScoring_frame this ids w :
  Guilds (afterScoring this ids w) = Guilds w
  ∧ Rooms (afterScoring this ids w) = Rooms w
  ∧ themesCache (afterScoring this ids w) = themesCache w
  ∧ ∃ ext, effects (afterScoring this ids w) = (effects w ++ ext)%list
           ∧ Forall (fun e => isLevelUp e = true) ext.
Proof.
  revert w. induction ids as [|x ids IH]; intros w.
  - simpl. split_and!; try done. exists []. by rewrite app_nil_r.
  - change (afterScoring this (x :: ids) w)
      with (afterScoring this ids (exec (scoreAnswerer this x) w)).
    destruct (IH (exec (scoreAnswerer this x) w)) as (G & R & C & ext2 & E2 & F2).
    destruct (scoreAnswerer_exec this x w) as (G1 & R1 & C1 & _ & _ & ext1 & E1 & F1).
    split_and!; try congruence.
    exists (ext1 ++ ext2)%list. split; [by rewrite E2, E1, app_assoc|by apply Forall_app].
Qed.

Lemma afterScoring_scores this ids w id :
  RoomLeaderboard (afterScoring this ids w) !! id =
  addScore (occurrences id ids) <$> RoomLeaderboard w !! id.
Proof.
  revert w. induction ids as [|x ids IH]; intros w.
  - simpl. destruct (RoomLeaderboard w !! id) as [[g s]|]; simpl; [|done].
    unfold addScore, occurrences. simpl. do 2 f_equal. lia.
  - change (afterScoring this (x :: ids) w)
      with (afterScoring this ids (exec (scoreAnswerer this x) w)).
    rewrite IH.
    destruct (scoreAnswerer_exec this x w) as (_ & _ & _ & -> & _).
    destruct (decide (x = id)) as [->|Hne].
    + rewrite lookup_alter_eq, occurrences_cons_eq.
      destruct (RoomLeaderboard w !! id) as [[g s]|]; simpl; [|done].
      unfold addScore. simpl. do 2 f_equal. lia.
    + by rewrite lookup_alter_ne, occurrences_cons_ne.
Qed.

Lemma afterScoring_xp this ids w id :
  xp <$> Users (afterScoring this ids w) !! id =
  (fun u => xp u + occurrences id ids * xpOf this id) <$> Users w !! id.
Proof.
  revert w. induction ids as [|x ids IH]; intros w.
  - simpl. destruct (Users w !! id) as [u|]; simpl; [|done].
    unfold occurrences. simpl. f_equal. lia.
  - change (afterScoring this (x :: ids) w)
      with (afterScoring this ids (exec (scoreAnswerer this x) w)).
    rewrite IH.
    destruct (scoreAnswerer_exec this x w) as (_ & _ & _ & _ & -> & _).
    destruct (decide (x = id)) as [->|Hne].
    + rewrite lookup_alter_eq, occurrences_cons_eq.
      destruct (Users w !! id) as [u|]; simpl; [|done]. f_equal. lia.
    + by rewrite lookup_alter_ne, occurrences_cons_ne.
Qed.

Lemma revealAndScore_unfold this c w :
  revealAndScore this c w =
  (Returned tt,
   afterScoring this (answerers (snd (ctx_room c)))
     (logged [createMessage (Text "The answer is...");
              createMessage (Embed (answerEmbed (ctx_theme c) (ctx_animeData c)));
              createMessage (winnersLine this (answerers (snd (ctx_room c))))] w)).
Proof.
  unfold revealAndScore.
  unfold bind at 1. unfold bind at 1. unfold bind at 1.
  unfold send, emit, modify. simpl.
  rewrite forEach_total by reflexivity.
  f_equal. unfold afterScoring, scoreAnswerer, logged, winnersLine. simpl.
  rewrite <- !app_assoc. simpl.
  by destruct (answerers (ctx_room c).2).
Qed.

Lemma revealAndScore_summary this c w :
  ∃ w1 ext,
    revealAndScore this c w = (Returned tt, w1)
    ∧ (∀ id, RoomLeaderboard w1 !! id =
             addScore (occurrences id (answerers (snd (ctx_room c))))
               <$> RoomLeaderboard w !! id)
    ∧ (∀ id, xp <$> Users w1 !! id =
             (fun u => xp u + occurrences id (answerers (snd (ctx_room c))) * xpOf this id)
               <$> Users w !! id)
    ∧ Guilds w1 = Guilds w ∧ Rooms w1 = Rooms w ∧ themesCache w1 = themesCache w
    ∧ effects w1 =
      (effects w ++
         [createMessage (Text "The answer is...");
          createMessage (Embed (answerEmbed (ctx_theme c) (ctx_animeData c)));
          createMessage (winnersLine this (answerers (snd (ctx_room c))))] ++ ext)%list
    ∧ Forall (fun e => isLevelUp e = true) ext
    ∧ (answerers (snd (ctx_room c)) = [] → ext = []).
Proof.
  set (w0 := logged [createMessage (Text "The answer is...");
                     createMessage (Embed (answerEmbed (ctx_theme c) (ctx_animeData c)));
                     createMessage (winnersLine this (answerers (snd (ctx_room c))))] w).
  destruct (afterScoring_frame this (answerers (snd (ctx_room c))) w0)
    as (G & R & C & ext & E & F).
  exists (afterScoring this (answerers (snd (ctx_room c))) w0), ext.
  split_and!; try done.
  - apply revealAndScore_unfold.
  - intros id. by rewrite afterScoring_scores.
  - intros id. by rewrite afterScoring_xp.
  - rewrite E. unfold w0. simpl. by rewrite <- app_assoc.
  - intros Hnil. clearbody w0. rewrite Hnil in E. simpl in E.
    rewrite <- (app_nil_r (effects w0)) in E at 1. by apply app_inv_head in E.
Qed.

Lemma occurrences_absent id ids : id ∉ ids → occurrences id ids = 0.
Proof.
  induction ids as [|x ids IH]; [done|].
  intros Hn. apply not_elem_of_cons in Hn as [Hne Hn].
  rewrite occurrences_cons_ne by done. by apply IH.
Qed.

Lemma occurrences_once id ids : NoDup ids → id ∈ ids → occurrences id ids = 1.
Proof.
  induction 1 as [|x ids Hx Hnd IH]; [by intros ?%elem_of_nil|].
  intros [->|Hin]%elem_of_cons.
  - rewrite occurrences_cons_eq, occurrences_absent by done. lia.
  - rewrite occurrences_cons_ne by (intros ->; done). by apply IH.
Qed.

(** X5. The scoring of a round in which no user is listed twice among the
    answerers, once the un-awaited updates have been written: the score of
    every answerer with a leaderboard entry is raised by one (an answerer
    without an entry gets none), the experience of every answerer with a
    [User] document is raised by the experience granted for a round, the
    scores and the experience of everybody else are as they were, and so
    are guilds, rooms and the theme cache. *)
Theorem revealAndScore_scores_each_answerer this c w :
  NoDup (answerers (snd (ctx_room c))) →
  (∀ id, id ∈ answerers (snd (ctx_room c)) →
         RoomLeaderboard (exec (revealAndScore this c) w) !! id =
         addScore 1 <$> RoomLeaderboard w !! id
         ∧ xp <$> Users (exec (revealAndScore this c) w) !! id =
           (fun u => xp u + xpOf this id) <$> Users w !! id)
  ∧ (∀ id, id ∉ answerers (snd (ctx_room c)) →
           RoomLeaderboard (exec (revealAndScore this c) w) !! id = RoomLeaderboard w !! id
           ∧ xp <$> Users (exec (revealAndScore this c) w) !! id = xp <$> Users w !! id)
  ∧ Guilds (exec (revealAndScore this c) w) = Guilds w
  ∧ Rooms (exec (revealAndScore this c) w) = Rooms w
  ∧ themesCache (exec (revealAndScore this c) w) = themesCache w.
Proof.
  intros Hnd.
  destruct (revealAndScore_summary this c w) as (w1 & ext & E & S & X & G & R & C & _).
  unfold exec. rewrite E. simpl. split_and!; try done.
  - intros id Hin. rewrite S, X, (occurrences_once _ _ Hnd Hin). split; [done|].
    destruct (Users w !! id); simpl; f_equal; lia.
  - intros id Hout. rewrite S, X, (occurrences_absent _ _ Hout). split.
    + destruct (RoomLeaderboard w !! id) as [[g s]|]; simpl; [|done].
      unfold addScore. simpl. do 2 f_equal. lia.
    + destruct (Users w !! id); simpl; f_equal; lia.
Qed.

Lemma revealAndScore_scores_each_answerer_witness :
  (RoomLeaderboard (exec (revealAndScore (handlerWithRounds 3) (sampleContext 2))
                         (sampleWorld 2)) !! "alice"
   = addScore 1 <$> RoomLeaderboard (sampleWorld 2) !! "alice"
   ∧ xp <$> Users (exec (revealAndScore (handlerWithRounds 3) (sampleContext 2))
                        (sampleWorld 2)) !! "alice"
     = (fun u => xp u + xpOf (handlerWithRounds 3) "alice") <$> Users (sampleWorld 2) !! "alice")
  ∧ (RoomLeaderboard (exec (revealAndScore (handlerWithRounds 3) (sampleContext 2))
                           (sampleWorld 2)) !! "bob"
     = RoomLeaderboard (sampleWorld 2) !! "bob"
     ∧ xp <$> Users (exec (revealAndScore (handlerWithRounds 3) (sampleContext 2))
                          (sampleWorld 2)) !! "bob"
       = xp <$> Users (sampleWorld 2) !! "bob").
Proof.
  assert (NoDup (answerers (snd (ctx_room (sampleContext 2))))) as Hnd.
  { simpl. apply NoDup_singleton. }
  split.
  - apply (proj1 (revealAndScore_scores_each_answerer (handlerWithRounds 3) (sampleContext 2)
                    (sampleWorld 2) Hnd)).
    simpl. left.
  - apply (proj1 (proj2 (revealAndScore_scores_each_answerer (handlerWithRounds 3)
                           (sampleContext 2) (sampleWorld 2) Hnd))).
    simpl. apply not_elem_of_cons. split; [discriminate|apply not_elem_of_nil].
Defined.

(** X6. The reveal-and-score step sends, in this order, "The answer is...",
    the answer embed of the round's theme and the winners line, which names
    the answerers as mentions, or the "nobody" marker when there is none;
    everything it sends after that is a level-up message, and nothing at
    all when nobody answered. *)
Theorem revealAndScore_reveals_then_levels this c w :
  ∃ ext,
    effects (exec (revealAndScore this c) w) =
    (effects w ++
       [createMessage (Text "The answer is...");
        createMessage (Embed (answerEmbed (ctx_theme c) (ctx_animeData c)));
        createMessage (winnersLine this (answerers (snd (ctx_room c))))] ++ ext)%list
    ∧ Forall (fun e => isLevelUp e = true) ext
    ∧ (answerers (snd (ctx_room c)) = [] → ext = []).
Proof.
  destruct (revealAndScore_summary this c w) as (w1 & ext & E & _ & _ & _ & _ & _ & Eff & F & N).
  exists ext. unfold exec. by rewrite E.
Qed.

Lemma revealAndScore_reveals_then_levels_witness :
  ∃ ext,
    effects (exec (revealAndScore (handlerWithRounds 3)
                     (mkContext ("guild", mkRoom [] "channel" "author" 1 false) sampleGuild
                                "voice" false usedTheme "Used (anime)")) (sampleWorld 1)) =
    (effects (sampleWorld 1) ++
       [createMessage (Text "The answer is...");
        createMessage (Embed (answerEmbed usedTheme "Used (anime)"));
        createMessage (winnersLine (handlerWithRounds 3) [])] ++ ext)%list
    ∧ Forall (fun e => isLevelUp e = true) ext
    ∧ ext = [].
Proof.
  destruct (revealAndScore_reveals_then_levels (handlerWithRounds 3)
              (mkContext ("guild", mkRoom [] "channel" "author" 1 false) sampleGuild
                         "voice" false usedTheme "Used (anime)") (sampleWorld 1))
    as (ext & E & F & Hnil).
  exists ext. split_and!; [exact E | exact F | apply Hnil; reflexivity].
Defined.

(** X7. In the last round, nobody having answered it, when the winner of
    the match has no [User] document, the [end] listener throws a
    [TypeError] out of final handling: after the reveal nothing more is
    sent, the bot does not leave the voice channel and [clearData] is never
    reached, so that the room, the guild (with its [rolling] flag), the
    leaderboard and the users stay as they were. *)
Theorem final_round_stuck_without_winner_user this next c w d :
  rounds (gameOptions this) <= currentRound (snd (ctx_room c)) →
  answerers (snd (ctx_room c)) = [] →
  result (getMatchWinner this (ctx_isSingleplayer c)) w = Returned (WinnerDocument d) →
  Users w !! fst d = None →
  result (answerCollectorEnd this next c timeLimit) w = Thrown TypeError
  ∧ persisted (exec (answerCollectorEnd this next c timeLimit) w) = persisted w
  ∧ newEffects w (exec (answerCollectorEnd this next c timeLimit) w) =
    [createMessage (Text "The answer is...");
     createMessage (Embed (answerEmbed (ctx_theme c) (ctx_animeData c)));
     createMessage (Text (t this "game:winners" [("users", t this "utils:nobody" [])]))].
Proof.
  intros Hlast Hquiet Hwin Hnone.
  set (es := [createMessage (Text "The answer is...");
              createMessage (Embed (answerEmbed (ctx_theme c) (ctx_animeData c)));
              createMessage (Text (t this "game:winners" [("users", t this "utils:nobody" [])]))]).
  assert (revealAndScore this c w = (Returned tt, logged es w)) as E1.
  { rewrite revealAndScore_unfold, Hquiet. reflexivity. }
  assert (answerCollectorEnd this next c timeLimit w = (Thrown TypeError, logged es w)) as E.
  { unfold answerCollectorEnd. unfold bind at 1. rewrite E1.
    rewrite bool_decide_true by done.
    unfold bind at 1. unfold handleFinish. simpl. unfold bind at 1. unfold bind at 1.
    unfold result in Hwin. rewrite getMatchWinner_unfold in Hwin |- *. simpl in Hwin.
    change (highestScore this (logged es w)) with (highestScore this w).
    change (RoomLeaderboard (logged es w)) with (RoomLeaderboard w).
    injection Hwin as ->.
    unfold User.findById, bind, get. simpl. by rewrite Hnone. }
  unfold result, exec. rewrite E. simpl. split_and!; try done.
  apply newEffects_logged.
Qed.

Lemma final_round_stuck_without_winner_user_witness :
  result (answerCollectorEnd (handlerWithRounds 3) goodInputs (quietContext 3) timeLimit)
         strandedWorld = Thrown TypeError
  ∧ persisted (exec (answerCollectorEnd (handlerWithRounds 3) goodInputs (quietContext 3)
                       timeLimit) strandedWorld) = persisted strandedWorld
  ∧ newEffects strandedWorld
      (exec (answerCollectorEnd (handlerWithRounds 3) goodInputs (quietContext 3) timeLimit)
            strandedWorld) =
    [createMessage (Text "The answer is...");
     createMessage (Embed (answerEmbed (ctx_theme (quietContext 3))
                                       (ctx_animeData (quietContext 3))));
     createMessage (Text (t (handlerWithRounds 3) "game:winners"
                            [("users", t (handlerWithRounds 3) "utils:nobody" [])]))].
Proof.
  apply (final_round_stuck_without_winner_user (handlerWithRounds 3) goodInputs
           (quietContext 3) strandedWorld ("alice", mkLeaderboard "guild" 7)).
  - simpl. lia.
  - reflexivity.
  - vm_compute. reflexivity.
  - reflexivity.
Defined.

(** X8. When a round other than the last ends by timeout and the requester
    is no longer in a voice channel, no round is started and nothing is
    cleaned up: after the scoring the only effects are the message that
    no user is in the voice channel (after [leaveVoiceChannel(undefined)])
    or, without a stored room, that there is no voice channel; the room and
    the guild, still [rolling], stay as they were. *)
Theorem round_end_without_voice_keeps_session this next c w :
  currentRound (snd (ctx_room c)) < rounds (gameOptions this) →
  voiceStateChannelID this = None →
  ∃ w1,
    revealAndScore this c w = (Returned tt, w1)
    ∧ answerCollectorEnd this next c timeLimit w =
      (Returned (NextRound (Returned NotStarted)),
       logged (if bool_decide (is_Some (Rooms w !! guildID this))
               then [leaveVoiceChannel None;
                     createMessage (Text (t this "game:errors.noUsersInTheVoiceChannel" []))]
               else [createMessage (Text (t this "game:errors.noVoiceChannel" []))]) w1)
    ∧ Rooms (exec (answerCollectorEnd this next c timeLimit) w) = Rooms w
    ∧ Guilds (exec (answerCollectorEnd this next c timeLimit) w) = Guilds w.
Proof.
  intros Hmore Hv.
  destruct (revealAndScore_summary this c w) as (w1 & ext & E1 & _ & _ & G & R & _).
  exists w1. split; [done|].
  assert (startNewRound this next (ctx_guild c) w1 =
          (Returned NotStarted,
           logged (if bool_decide (is_Some (Rooms w !! guildID this))
                   then [leaveVoiceChannel None;
                         createMessage (Text (t this "game:errors.noUsersInTheVoiceChannel" []))]
                   else [createMessage (Text (t this "game:errors.noVoiceChannel" []))]) w1)) as Es.
  { unfold startNewRound. rewrite Hv. unfold RoomsCollection.exists_. async. rewrite R.
    destruct (bool_decide _); simpl; [|done]. unfold logged. by rewrite <- app_assoc. }
  assert (answerCollectorEnd this next c timeLimit w =
          (Returned (NextRound (Returned NotStarted)),
           logged (if bool_decide (is_Some (Rooms w !! guildID this))
                   then [leaveVoiceChannel None;
                         createMessage (Text (t this "game:errors.noUsersInTheVoiceChannel" []))]
                   else [createMessage (Text (t this "game:errors.noVoiceChannel" []))]) w1)) as E.
  { unfold answerCollectorEnd. unfold bind at 1. rewrite E1.
    rewrite bool_decide_false by lia. by rewrite Es. }
  unfold exec. rewrite E. simpl. done.
Qed.

Lemma round_end_without_voice_keeps_session_witness :
  ∃ w1,
    revealAndScore (withoutVoice (handlerWithRounds 3)) (sampleContext 2) (sampleWorld 2)
    = (Returned tt, w1)
    ∧ answerCollectorEnd (withoutVoice (handlerWithRounds 3)) goodInputs (sampleContext 2)
                         timeLimit (sampleWorld 2) =
      (Returned (NextRound (Returned NotStarted)),
       logged (if bool_decide (is_Some (Rooms (sampleWorld 2)
                                          !! guildID (withoutVoice (handlerWithRounds 3))))
               then [leaveVoiceChannel None;
                     createMessage (Text (t (withoutVoice (handlerWithRounds 3))
                                            "game:errors.noUsersInTheVoiceChannel" []))]
               else [createMessage (Text (t (withoutVoice (handlerWithRounds 3))
                                             "game:errors.noVoiceChannel" []))]) w1)
    ∧ Rooms (exec (answerCollectorEnd (withoutVoice (handlerWithRounds 3)) goodInputs
                     (sampleContext 2) timeLimit) (sampleWorld 2)) = Rooms (sampleWorld 2)
    ∧ Guilds (exec (answerCollectorEnd (withoutVoice (handlerWithRounds 3)) goodInputs
                      (sampleContext 2) timeLimit) (sampleWorld 2)) = Guilds (sampleWorld 2).
Proof.
  apply (round_end_without_voice_keeps_session (withoutVoice (handlerWithRounds 3)) goodInputs
           (sampleContext 2) (sampleWorld 2)).
  - simpl. lia.
  - reflexivity.
Defined.

Lemma startNewRound_fault this x guild guild' w w' e :
  result (startNewRound this x guild) w = Thrown e →
  result (startNewRound this x guild') w' = Thrown e.
Proof.
  unfold result.
  destruct (startNewRound this x guild w) as [o w1] eqn:E.
  destruct (startNewRound this x guild' w') as [o' w1'] eqn:E'. simpl.
  unfold startNewRound in E, E'.
  destruct (voiceStateChannelID this) as [vc|].
  - destruct (guildChannels this !! vc) as [ch|];
      [|revert E E'; async; congruence].
    unfold bind at 1 in E. unfold lift at 1 in E.
    unfold bind at 1 in E. unfold lift at 1 in E.
    unfold bind at 1 in E'. unfold lift at 1 in E'.
    unfold bind at 1 in E'. unfold lift at 1 in E'.
    destruct (isSinglePlayer this ch) as [sp|e0];
      [|revert E E'; async; congruence].
    unfold bind at 1 in E. unfold bind at 1 in E'. rewrite handleRoom_unfold in E, E'.
    unfold getTheme, User.findById, GuildsCollection.save in *.
    revert E E'.
    destruct (themeLookup x), (streamLookup x), (animeDataLookup x);
      async; repeat destruct (bool_decide _); simpl; congruence.
  - revert E E'. unfold RoomsCollection.exists_. async.
    repeat destruct (bool_decide _); congruence.
Qed.

Lemma startNewRound_extends this x guild w :
  ∃ ext, effects (exec (startNewRound this x guild) w) = (effects w ++ ext)%list.
Proof.
  unfold exec.
  destruct (startNewRound this x guild w) as [o w1] eqn:E. simpl.
  unfold startNewRound in E.
  destruct (voiceStateChannelID this) as [vc|].
  - destruct (guildChannels this !! vc) as [ch|];
      [|revert E; async; intros [= <- <-]; exists []; by rewrite app_nil_r].
    unfold bind at 1 in E. unfold lift at 1 in E.
    unfold bind at 1 in E. unfold lift at 1 in E.
    destruct (isSinglePlayer this ch) as [sp|e0];
      [|revert E; async; intros [= <- <-]; exists []; by rewrite app_nil_r].
    unfold bind at 1 in E. rewrite handleRoom_unfold in E.
    unfold getTheme, User.findById, GuildsCollection.save in *.
    revert E.
    destruct (themeLookup x), (streamLookup x), (animeDataLookup x);
      async; destruct (bool_decide _); simpl; intros [= <- <-]; simpl;
      rewrite <- ?app_assoc; eexists; reflexivity.
  - revert E. unfold RoomsCollection.exists_. async.
    destruct (bool_decide _); intros [= <- <-]; simpl; rewrite <- ?app_assoc;
      eexists; reflexivity.
Qed.

(** X9. When a round other than the last ends by timeout and the round
    start throws a fault (whether it does, and which, does not depend on
    what is stored), the [end] listener catches it: the fault is handed to
    [handleError], the listener ends with it and the guild document is not
    saved. *)
Theorem round_end_catches_start_faults this next c w e :
  currentRound (snd (ctx_room c)) < rounds (gameOptions this) →
  result (startNewRound this next (ctx_guild c)) w = Thrown e →
  result (answerCollectorEnd this next c timeLimit) w = Returned (NextRound (Thrown e))
  ∧ handleError e ∈ newEffects w (exec (answerCollectorEnd this next c timeLimit) w)
  ∧ Guilds (exec (answerCollectorEnd this next c timeLimit) w) = Guilds w.
Proof.
  intros Hmore Hthrown.
  destruct (revealAndScore_steady this c w) as (w1 & E1 & G1 & _ & _ & _ & N1).
  pose proof (startNewRound_cases this next (ctx_guild c) w1) as (_ & _ & HG).
  apply (startNewRound_fault _ _ _ (ctx_guild c) _ w1) in Hthrown.
  assert (answerCollectorEnd this next c timeLimit w =
          match startNewRound this next (ctx_guild c) w1 with
          | (Thrown err, w') =>
              (Returned (NextRound (Thrown err)), exec (emit (handleError err)) w')
          | (r, w') => (Returned (NextRound r), w')
          end) as E.
  { unfold answerCollectorEnd. unfold bind at 1. rewrite E1.
    by rewrite bool_decide_false by lia. }
  pose proof (startNewRound_extends this next (ctx_guild c) w1) as (ext & Hext).
  unfold result, exec in *. rewrite E.
  destruct (startNewRound this next (ctx_guild c) w1) as [[r|e'] w2]; simpl in *; [done|].
  injection Hthrown as ->. split_and!; [done| |congruence].
  eapply newEffects_trans; [exact N1|].
  exists (ext ++ [handleError e])%list. split; [by rewrite Hext, app_assoc|].
  apply elem_of_app. right. by left.
Qed.

Lemma round_end_catches_start_faults_witness :
  result (answerCollectorEnd (handlerWithRounds 3) noStream (sampleContext 2) timeLimit)
         (sampleWorld 2)
  = Returned (NextRound (Thrown (Error "game:errors.unableToLoadStream")))
  ∧ handleError (Error "game:errors.unableToLoadStream")
    ∈ newEffects (sampleWorld 2)
        (exec (answerCollectorEnd (handlerWithRounds 3) noStream (sampleContext 2) timeLimit)
              (sampleWorld 2))
  ∧ Guilds (exec (answerCollectorEnd (handlerWithRounds 3) noStream (sampleContext 2)
                    timeLimit) (sampleWorld 2)) = Guilds (sampleWorld 2).
Proof.
  apply (round_end_catches_start_faults (handlerWithRounds 3) noStream (sampleContext 2)
           (sampleWorld 2) (Error "game:errors.unableToLoadStream")).
  - simpl. lia.
  - vm_compute. reflexivity.
Defined.

(** X10. Final handling without force, the users on the leaderboard being
    known: with no leaderboard entry for the guild it only leaves the voice
    channel, in either mode; with entries, in multiplayer mode it
    congratulates one user holding the maximum score of the guild, with the
    experience granted for a round, and then leaves the voice channel. In
    both cases no collection is written. *)
Theorem final_handling_congratulates_maximum this room voiceChannelID w :
  usersKnown w →
  (∀ sp,
     (∀ id d, RoomLeaderboard w !! id = Some d → guildId d ≠ guildID this) →
     handleFinish this room voiceChannelID sp false w =
     (Returned tt, logged [leaveVoiceChannel (Some voiceChannelID)] w))
  ∧ (∀ id0 d0,
       RoomLeaderboard w !! id0 = Some d0 → guildId d0 = guildID this →
       ∃ id d,
         handleFinish this room voiceChannelID false false w =
         (Returned tt,
          logged [createMessage (Congrats id (xpOf this id));
                  leaveVoiceChannel (Some voiceChannelID)] w)
         ∧ RoomLeaderboard w !! id = Some d
         ∧ guildId d = guildID this
         ∧ ∀ id' d', RoomLeaderboard w !! id' = Some d' → guildId d' = guildID this →
                     score d' <= score d).
Proof.
  intros Hknown. split.
  - intros sp Hnone. rewrite handleFinish_unforced by done.
    apply entriesOf_nil in Hnone.
    unfold winnerAnnouncement, result.
    rewrite getMatchWinner_unfold, (highestScore_no_entries _ _ Hnone).
    unfold firstWithScore. rewrite Hnone. simpl. by destruct sp.
  - intros id0 d0 Hd0 Hg0. rewrite handleFinish_unforced by done.
    destruct (highestScore_some_entry this w id0 d0 Hd0 Hg0) as [s Hs].
    destruct (firstWithScore_highest this w s Hs) as [[id d] [Hfirst [Hin Hscore]]].
    exists id, d. unfold winnerAnnouncement, result.
    rewrite getMatchWinner_unfold, Hs, Hfirst. simpl.
    apply elem_of_entriesOf in Hin as [Hd Hg]. split_and!; try done.
    intros id' d' Hd' Hg'. simpl in Hscore. rewrite Hscore.
    apply Math_max_attained in Hs as [_ Hmax]. apply Hmax.
    unfold scoresOf. apply list_elem_of_In, in_map_iff. exists (id', d').
    split; [done|]. apply list_elem_of_In. by apply elem_of_entriesOf.
Qed.

Lemma final_handling_congratulates_maximum_witness :
  handleFinish (handlerWithRounds 3) (sampleRoom 3) "voice" true false idleWorld =
  (Returned tt, logged [leaveVoiceChannel (Some "voice")] idleWorld)
  ∧ ∃ id d,
      handleFinish (handlerWithRounds 3) (sampleRoom 3) "voice" false false (sampleWorld 3) =
      (Returned tt,
       logged [createMessage (Congrats id (xpOf (handlerWithRounds 3) id));
               leaveVoiceChannel (Some "voice")] (sampleWorld 3))
      ∧ RoomLeaderboard (sampleWorld 3) !! id = Some d
      ∧ guildId d = guildID (handlerWithRounds 3)
      ∧ ∀ id' d', RoomLeaderboard (sampleWorld 3) !! id' = Some d' →
                  guildId d' = guildID (handlerWithRounds 3) → score d' <= score d.
Proof.
  split.
  - apply (proj1 (final_handling_congratulates_maximum (handlerWithRounds 3) (sampleRoom 3)
                    "voice" idleWorld ltac:(unfold usersKnown; simpl; rewrite dom_empty_L;
                                            apply empty_subseteq)) true).
    intros id d H. simpl in H. by rewrite lookup_empty in H.
  - apply (proj2 (final_handling_congratulates_maximum (handlerWithRounds 3) (sampleRoom 3)
                    "voice" (sampleWorld 3) (sampleWorld_usersKnown 3))
             "alice" (mkLeaderboard "guild" 7)); reflexivity.
Defined.


(** ** Random integers *)

Lemma Qfloor_between (x : Q) (a b : Z) :
  (inject_Z a <= x)%Q → (x <= inject_Z b)%Q → a <= Qfloor x <= b.
Proof.
  intros Ha Hb. split.
  - rewrite <- (Qfloor_Z a). by apply Qfloor_resp_le.
  - rewrite <- (Qfloor_Z b). by apply Qfloor_resp_le.
Qed.

Lemma scaled_between (random : Q) (d : Z) :
  (0 <= random)%Q → (random < 1)%Q →
  (inject_Z (Z.min 0 d) <= random * inject_Z d)%Q
  ∧ (random * inject_Z d <= inject_Z (Z.max 0 d))%Q.
Proof.
  intros H0 H1. destruct (Z.le_gt_cases 0 d) as [Hd|Hd].
  - rewrite Z.min_l, Z.max_r by done.
    assert (0 <= inject_Z d)%Q as HdQ.
    { change (inject_Z 0 <= inject_Z d)%Q. by rewrite <- Zle_Qle. }
    split.
    + by apply Qmult_le_0_compat.
    + rewrite <- (Qmult_1_l (inject_Z d)) at 2.
      apply Qmult_le_compat_r; [by apply Qlt_le_weak|done].
  - rewrite Z.min_r, Z.max_l by lia.
    assert (0 <= inject_Z (- d))%Q as HdQ.
    { change (inject_Z 0 <= inject_Z (- d))%Q. rewrite <- Zle_Qle. lia. }
    assert (random * inject_Z d == - (random * inject_Z (- d)))%Q as Heq.
    { rewrite inject_Z_opp. ring. }
    rewrite Heq. split.
    + rewrite <- (Qopp_involutive (inject_Z d)), <- inject_Z_opp.
      apply Qopp_le_compat.
      rewrite <- (Qmult_1_l (inject_Z (- d))) at 2.
      apply Qmult_le_compat_r; [by apply Qlt_le_weak|done].
    + change (inject_Z 0) with (- 0)%Q. apply Qopp_le_compat.
      by apply Qmult_le_0_compat.
Qed.

Lemma roundHalfEven_bounds x : Qfloor x <= roundHalfEven x <= Qfloor x + 1.
Proof.
  unfold roundHalfEven.
  destruct (x - inject_Z (Qfloor x) ?= 1 # 2)%Q; [destruct (Z.even _)| |]; lia.
Qed.

Lemma roundHalfEven_comp x y : (x == y)%Q → roundHalfEven x = roundHalfEven y.
Proof.
  intros E. unfold roundHalfEven. rewrite (Qfloor_comp _ _ E).
  assert (((x - inject_Z (Qfloor y)) ?= (1 # 2)) = ((y - inject_Z (Qfloor y)) ?= (1 # 2)))%Q as ->.
  { apply Qcompare_comp; [by rewrite E|reflexivity]. }
  reflexivity.
Qed.

Lemma roundHalfEven_Z n : roundHalfEven (inject_Z n) = n.
Proof.
  unfold roundHalfEven. rewrite Qfloor_Z.
  assert (((inject_Z n - inject_Z n) ?= (1 # 2)) = Lt)%Q as ->; [|done].
  rewrite <- Qlt_alt. unfold Qlt, Qminus, Qplus, Qopp, inject_Z. simpl. lia.
Qed.

Lemma roundHalfEven_mono x y : (x <= y)%Q → roundHalfEven x <= roundHalfEven y.
Proof.
  intros Hle.
  pose proof (Qfloor_resp_le _ _ Hle) as Hf.
  pose proof (roundHalfEven_bounds x) as Bx. pose proof (roundHalfEven_bounds y) as By.
  destruct (decide (Qfloor x = Qfloor y)) as [E|]; [|lia].
  unfold roundHalfEven in *. rewrite E in *.
  assert (x - inject_Z (Qfloor y) <= y - inject_Z (Qfloor y))%Q as Hr.
  { by apply Qplus_le_l. }
  destruct ((x - inject_Z (Qfloor y)) ?= (1 # 2))%Q eqn:Cx;
    destruct ((y - inject_Z (Qfloor y)) ?= (1 # 2))%Q eqn:Cy;
    try (destruct (Z.even _)); try lia; exfalso;
    repeat match goal with
           | H : (_ ?= _)%Q = Eq |- _ => apply Qeq_alt in H
           | H : (_ ?= _)%Q = Lt |- _ => apply Qlt_alt in H
           | H : (_ ?= _)%Q = Gt |- _ => apply Qgt_alt in H
           end; lra.
Qed.

Lemma Qdiv_le_cross (A B C D : Z) :
  0 < B → 0 < D → A * D <= C * B →
  (inject_Z A / inject_Z B <= inject_Z C / inject_Z D)%Q.
Proof.
  intros HB HD H. destruct B as [|B|B]; try lia. destruct D as [|D|D]; try lia.
  unfold Qle, Qdiv, Qmult, Qinv, inject_Z. simpl. lia.
Qed.

Lemma Qdiv_lt_cross (A B C D : Z) :
  0 < B → 0 < D → A * D < C * B →
  (inject_Z A / inject_Z B < inject_Z C / inject_Z D)%Q.
Proof.
  intros HB HD H. destruct B as [|B|B]; try lia. destruct D as [|D|D]; try lia.
  unfold Qlt, Qdiv, Qmult, Qinv, inject_Z. simpl. lia.
Qed.

Lemma pow2_quotient (m n : Z) :
  0 <= m → 0 <= n → ((2 # 1) ^ (m - n) == inject_Z (2 ^ m) / inject_Z (2 ^ n))%Q.
Proof.
  intros Hm Hn. rewrite Qpower_minus by done.
  rewrite !Zpower_Qpower by done. reflexivity.
Qed.

Lemma binade_spec (x : Q) :
  (0 < x)%Q → ((2 # 1) ^ binade x <= x)%Q ∧ (x < (2 # 1) ^ (binade x + 1))%Q.
Proof.
  destruct x as [a b]. intros Hpos.
  assert (0 < a) as Ha. { unfold Qlt in Hpos. simpl in Hpos. lia. }
  unfold binade. simpl Qnum. simpl Qden.
  pose proof (Z.log2_spec a Ha) as [La Ua].
  pose proof (Z.log2_spec (Z.pos b) (Pos2Z.is_pos b)) as [Lb Ub].
  pose proof (Z.log2_nonneg a) as Na. pose proof (Z.log2_nonneg (Z.pos b)) as Nb.
  rewrite Z.pow_succ_r in Ua, Ub by done.
  set (la := Z.log2 a) in *. set (lb := Z.log2 (Z.pos b)) in *.
  assert (0 < 2 ^ la) as Pa by (apply Z.pow_pos_nonneg; lia).
  assert (0 < 2 ^ lb) as Pb by (apply Z.pow_pos_nonneg; lia).
  assert (a # b == inject_Z a / inject_Z (Z.pos b))%Q as Ex by apply Qmake_Qdiv.
  rewrite Ex.
  destruct (Z.ltb_spec (a * 2 ^ lb) (Z.pos b * 2 ^ la)) as [Hlt|Hge].
  - replace (la - lb - 1) with (la - (lb + 1)) by lia.
    replace (la - (lb + 1) + 1) with (la - lb) by lia.
    rewrite !pow2_quotient by lia. rewrite Z.pow_add_r, Z.pow_1_r by lia.
    split.
    + apply Qdiv_le_cross; nia.
    + apply Qdiv_lt_cross; nia.
  - replace (la - lb + 1) with ((la + 1) - lb) by lia.
    rewrite !pow2_quotient by lia. rewrite Z.pow_add_r, Z.pow_1_r by lia.
    split.
    + apply Qdiv_le_cross; nia.
    + apply Qdiv_lt_cross; nia.
Qed.

Lemma two_gt_one : (1 < 2 # 1)%Q.
Proof. reflexivity. Qed.

Lemma two_ne_zero : ¬ ((2 # 1) == 0)%Q.
Proof. discriminate. Qed.

Lemma pow2_pos (e : Z) : (0 < (2 # 1) ^ e)%Q.
Proof. apply Qpower_0_lt. reflexivity. Qed.

Lemma binade_mono (x y : Q) : (0 < x)%Q → (x <= y)%Q → binade x <= binade y.
Proof.
  intros Hx Hle.
  assert (0 < y)%Q as Hy by (by eapply Qlt_le_trans).
  destruct (binade_spec x Hx) as [Lx _]. destruct (binade_spec y Hy) as [_ Uy].
  destruct (Z.le_gt_cases (binade x) (binade y)) as [|Hgt]; [done|exfalso].
  assert ((2 # 1) ^ (binade y + 1) <= (2 # 1) ^ binade x)%Q as Hp.
  { apply Qpower_le_compat_l; [lia|]. apply Qlt_le_weak, two_gt_one. }
  lra.
Qed.

Lemma ulp_scale (e : Z) (k : Z) :
  0 <= k → (inject_Z (2 ^ k) * (2 # 1) ^ (e - k) == (2 # 1) ^ e)%Q.
Proof.
  intros Hk. rewrite Zpower_Qpower by done.
  change (inject_Z 2) with (2 # 1). rewrite <- Qpower_plus by apply two_ne_zero.
  by replace (k + (e - k)) with e by lia.
Qed.

Lemma roundPositive_bounds (x : Q) :
  (0 < x)%Q →
  ((2 # 1) ^ binade x <= roundPositive x)%Q
  ∧ (roundPositive x <= (2 # 1) ^ (binade x + 1))%Q.
Proof.
  intros Hx. destruct (binade_spec x Hx) as [L U]. unfold roundPositive.
  set (e := binade x) in *. set (ulp := ((2 # 1) ^ (e - 52))%Q).
  assert (0 < ulp)%Q as Hulp by apply pow2_pos.
  assert (inject_Z (2 ^ 52) * ulp == (2 # 1) ^ e)%Q as E52 by (by apply ulp_scale).
  assert (inject_Z (2 ^ 53) * ulp == (2 # 1) ^ (e + 1))%Q as E53.
  { unfold ulp. replace (e - 52) with ((e + 1) - 53) by lia. by apply ulp_scale. }
  split.
  - rewrite <- E52. apply Qmult_le_compat_r; [|by apply Qlt_le_weak].
    rewrite <- Zle_Qle. rewrite <- (roundHalfEven_Z (2 ^ 52)).
    apply roundHalfEven_mono. apply Qle_shift_div_l; [done|]. by rewrite E52.
  - rewrite <- E53. apply Qmult_le_compat_r; [|by apply Qlt_le_weak].
    rewrite <- Zle_Qle. rewrite <- (roundHalfEven_Z (2 ^ 53)).
    apply roundHalfEven_mono. apply Qle_shift_div_r; [done|].
    rewrite E53. by apply Qlt_le_weak.
Qed.

Lemma roundPositive_pos (x : Q) : (0 < x)%Q → (0 < roundPositive x)%Q.
Proof.
  intros Hx. eapply Qlt_le_trans; [apply (pow2_pos (binade x))|].
  by apply roundPositive_bounds.
Qed.

Lemma roundPositive_mono (x y : Q) :
  (0 < x)%Q → (x <= y)%Q → (roundPositive x <= roundPositive y)%Q.
Proof.
  intros Hx Hle.
  assert (0 < y)%Q as Hy by (by eapply Qlt_le_trans).
  pose proof (binade_mono x y Hx Hle) as He.
  destruct (decide (binade x = binade y)) as [E|Hne].
  - unfold roundPositive. rewrite E.
    apply Qmult_le_compat_r; [|apply Qlt_le_weak, pow2_pos].
    rewrite <- Zle_Qle. apply roundHalfEven_mono.
    apply Qmult_le_compat_r; [done|]. apply Qlt_le_weak, Qinv_lt_0_compat, pow2_pos.
  - destruct (roundPositive_bounds x Hx) as [_ Ux].
    destruct (roundPositive_bounds y Hy) as [Ly _].
    assert ((2 # 1) ^ (binade x + 1) <= (2 # 1) ^ binade y)%Q as Hp.
    { apply Qpower_le_compat_l; [lia|]. apply Qlt_le_weak, two_gt_one. }
    lra.
Qed.

Lemma binary64_mono (x y : Q) : (x <= y)%Q → (binary64 x <= binary64 y)%Q.
Proof.
  destruct x as [a b], y as [c d]. intros Hle. unfold binary64. simpl Qnum.
  destruct a as [|a|a], c as [|c|c];
    try (exfalso; unfold Qle in Hle; simpl in Hle; lia).
  - apply Qle_refl.
  - apply Qlt_le_weak, roundPositive_pos. reflexivity.
  - by apply roundPositive_mono.
  - assert (0 < roundPositive (- (Z.neg a # b)))%Q by (by apply roundPositive_pos).
    lra.
  - assert (0 < roundPositive (- (Z.neg a # b)))%Q by (by apply roundPositive_pos).
    assert (0 < roundPositive (Z.pos c # d))%Q by (by apply roundPositive_pos).
    lra.
  - apply Qopp_le_compat. apply roundPositive_mono; [reflexivity|].
    by apply Qopp_le_compat.
Qed.

Lemma binade_Z (z : Z) : 0 < z → binade (inject_Z z) = Z.log2 z.
Proof.
  intros Hz. unfold binade, inject_Z. cbn [Qnum Qden].
  change (Z.log2 1) with 0. rewrite Z.pow_0_r, Z.mul_1_r, Z.mul_1_l.
  pose proof (Z.log2_spec z Hz) as [L _].
  destruct (Z.ltb_spec z (2 ^ Z.log2 z)); lia.
Qed.

Lemma roundPositive_exact (x : Q) (k : Z) :
  (inject_Z k * (2 # 1) ^ (binade x - 52) == x)%Q → (roundPositive x == x)%Q.
Proof.
  intros E. unfold roundPositive.
  set (ulp := ((2 # 1) ^ (binade x - 52))%Q) in *.
  assert (0 < ulp)%Q as Hulp by apply pow2_pos.
  assert (x / ulp == inject_Z k)%Q as Ek.
  { rewrite <- E. apply Qdiv_mult_l. apply Qnot_eq_sym, Qlt_not_eq, Hulp. }
  by rewrite (roundHalfEven_comp _ _ Ek), roundHalfEven_Z.
Qed.

Lemma roundPositive_Z (z : Z) : 0 < z <= 2 ^ 53 → (roundPositive (inject_Z z) == inject_Z z)%Q.
Proof.
  intros [Hz Hu].
  pose proof (Z.log2_spec z Hz) as [L U]. pose proof (Z.log2_nonneg z) as N.
  assert (Z.log2 z <= 53) as H53.
  { change 53 with (Z.log2 (2 ^ 53)). by apply Z.log2_le_mono. }
  destruct (decide (Z.log2 z = 53)) as [E|Hne].
  - assert (z = 2 ^ 53) as -> by (rewrite E in L; lia).
    apply (roundPositive_exact _ (2 ^ 52)). vm_compute. reflexivity.
  - apply (roundPositive_exact _ (z * 2 ^ (52 - Z.log2 z))).
    rewrite binade_Z by done. rewrite inject_Z_mult, <- Qmult_assoc.
    replace (Z.log2 z - 52) with (0 - (52 - Z.log2 z)) by lia.
    rewrite ulp_scale by lia. rewrite Qpower_0_r. apply Qmult_1_r.
Qed.

Lemma binary64_exact (z : Z) :
  - 2 ^ 53 <= z <= 2 ^ 53 → (binary64 (inject_Z z) == inject_Z z)%Q.
Proof.
  intros Hz. unfold binary64. simpl Qnum. destruct z as [|p|p].
  - reflexivity.
  - apply roundPositive_Z. lia.
  - change (- inject_Z (Z.neg p))%Q with (inject_Z (Z.pos p)).
    rewrite roundPositive_Z by lia. reflexivity.
Qed.

(** X11. [randomIntBetween(min, max)], for a value of [Math.random()] (at
    least 0, less than 1) and any rounding of the arithmetic that is
    monotone and exact on the integers up to [2^53] (as that of binary64
    is), [ceil(min)], [floor(max)] and their difference being such
    integers: the result lies between [ceil(min)] and [floor(max)], both
    included. The product and the sum are rounded, so that [floor(max)]
    itself can be returned. *)
Theorem randomIntBetween_bounds (fl : Q → Q) (random min max : Q) :
  (∀ x y, (x <= y)%Q → (fl x <= fl y)%Q) →
  (∀ z, - 2 ^ 53 <= z <= 2 ^ 53 → (fl (inject_Z z) == inject_Z z)%Q) →
  (0 <= random)%Q → (random < 1)%Q →
  - 2 ^ 53 <= Qceiling min <= 2 ^ 53 →
  - 2 ^ 53 <= Qfloor max <= 2 ^ 53 →
  - 2 ^ 53 <= Qfloor max - Qceiling min <= 2 ^ 53 →
  Z.min (Qceiling min) (Qfloor max) <= randomIntBetween fl random min max
  <= Z.max (Qceiling min) (Qfloor max).
Proof.
  intros Hmono Hexact H0 H1 Hlo Hhi Hd. unfold randomIntBetween.
  set (lo := Qceiling min) in *. set (hi := Qfloor max) in *.
  assert (∀ x y, (x == y)%Q → (fl x == fl y)%Q) as Hcomp.
  { intros x y E. apply Qle_antisym; apply Hmono; rewrite E; apply Qle_refl. }
  assert (fl (inject_Z hi - inject_Z lo) == inject_Z (hi - lo))%Q as Ed.
  { rewrite <- (Hexact (hi - lo)) by done. apply Hcomp.
    unfold Z.sub. rewrite inject_Z_plus, inject_Z_opp. reflexivity. }
  destruct (scaled_between random (hi - lo) H0 H1) as [Hl Hu].
  assert ((inject_Z (Z.min 0 (hi - lo)) <= fl (random * fl (inject_Z hi - inject_Z lo)))%Q
          ∧ (fl (random * fl (inject_Z hi - inject_Z lo)) <= inject_Z (Z.max 0 (hi - lo)))%Q)
    as [Hl' Hu'].
  { split.
    - rewrite <- (Hexact (Z.min 0 (hi - lo))) by lia. apply Hmono. by rewrite Ed.
    - rewrite <- (Hexact (Z.max 0 (hi - lo))) by lia. apply Hmono. by rewrite Ed. }
  apply Qfloor_between.
  - rewrite <- (Hexact (Z.min lo hi)) by lia. apply Hmono.
    replace (Z.min lo hi) with (Z.min 0 (hi - lo) + lo) by lia.
    rewrite inject_Z_plus. by apply Qplus_le_l.
  - rewrite <- (Hexact (Z.max lo hi)) by lia. apply Hmono.
    replace (Z.max lo hi) with (Z.max 0 (hi - lo) + lo) by lia.
    rewrite inject_Z_plus. by apply Qplus_le_l.
Qed.

Lemma randomIntBetween_bounds_witness :
  Z.min (Qceiling 2) (Qfloor 3)
  <= randomIntBetween binary64 (1 - (1 # 2 ^ 52)) 2 3
  <= Z.max (Qceiling 2) (Qfloor 3).
Proof.
  apply (randomIntBetween_bounds binary64 (1 - (1 # 2 ^ 52)) 2 3
           binary64_mono binary64_exact).
  - vm_compute. discriminate.
  - vm_compute. reflexivity.
  - vm_compute. split; discriminate.
  - vm_compute. split; discriminate.
  - vm_compute. split; discriminate.
Defined.

(** With binary64 rounding [randomIntBetween(2, 3)] returns 3 when
    [Math.random()] is [1 - 2^-52], where exact arithmetic would give 2. *)
Example randomIntBetween_values :
  randomIntBetween binary64 0 2 3 = 2
  ∧ randomIntBetween binary64 (1 # 2) 2 3 = 2
  ∧ randomIntBetween binary64 (1 - (1 # 2 ^ 52)) 2 3 = 3
  ∧ randomIntBetween (fun x => x) (1 - (1 # 2 ^ 52)) 2 3 = 2.
Proof. split_and!; vm_compute; reflexivity. Qed.

(** X12. When the bot is removed from a guild, the guild's document is
    deleted and nothing else: its room, its leaderboard entries and the
    users stay stored. A game started for that guild afterwards does
    nothing, and the listener run again changes nothing. *)
Theorem guildDelete_leaves_session_records this x w :
  result (guildDelete.run_ (guildID this)) w = Returned tt
  ∧ Guilds (exec (guildDelete.run_ (guildID this)) w) = delete (guildID this) (Guilds w)
  ∧ Rooms (exec (guildDelete.run_ (guildID this)) w) = Rooms w
  ∧ RoomLeaderboard (exec (guildDelete.run_ (guildID this)) w) = RoomLeaderboard w
  ∧ Users (exec (guildDelete.run_ (guildID this)) w) = Users w
  ∧ initGame this x (exec (guildDelete.run_ (guildID this)) w)
    = (Returned None, exec (guildDelete.run_ (guildID this)) w)
  ∧ exec (guildDelete.run_ (guildID this)) (exec (guildDelete.run_ (guildID this)) w)
    = exec (guildDelete.run_ (guildID this)) w.
Proof.
  unfold guildDelete.run_. async. split_and!; try done.
  - unfold initGame, GuildsCollection.findById, bind, get. simpl.
    by rewrite lookup_delete_eq.
  - by rewrite delete_delete_eq.
Qed.


(** * The earlier handler *)

Ltac earlier :=
  unfold Earlier.bind, Earlier.ret, Earlier.throw, Earlier.emit, Earlier.setGuilds,
    Earlier.setRooms, Earlier.setThemesCache, Earlier.findRoom, Earlier.findGuild; simpl.

Lemma getTheme_unfold this fuel x s :
  Earlier.getTheme this fuel x s =
  match Game.chooseTheme fuel (Earlier.getThemeByMode x) (Earlier.themesCache s) 0 with
  | None => None
  | Some (Returned theme) =>
      Some (Earlier.Done theme,
            Earlier.mkState (Earlier.Guilds s) (Earlier.Rooms s)
              (<[link theme := Earlier.guildID this]> (Earlier.themesCache s))
              (Earlier.events s ++ [Earlier.createMessage fetchingTheme;
                                    Earlier.deleteMessage fetchingTheme]))
  | Some (Thrown e) =>
      Some (Earlier.Failed (Earlier.Fault_ e),
            Earlier.mkState (Earlier.Guilds s) (Earlier.Rooms s) (Earlier.themesCache s)
              (Earlier.events s ++ [Earlier.createMessage fetchingTheme]))
  end.
Proof.
  unfold Earlier.getTheme, Earlier.chooseTheme. earlier.
  destruct (Game.chooseTheme _ _ _ _) as [[theme|e]|]; try done.
  simpl. unfold fetchingTheme. by rewrite <- app_assoc.
Qed.

Lemma getTheme_settles this fuel x s :
  (∀ theme s',
     Earlier.getTheme this fuel x s = Some (Earlier.Done theme, s') →
     Earlier.themesCache s !! link theme = None
     ∧ Earlier.themesCache s' = <[link theme := Earlier.guildID this]> (Earlier.themesCache s)
     ∧ Earlier.Guilds s' = Earlier.Guilds s ∧ Earlier.Rooms s' = Earlier.Rooms s
     ∧ Earlier.events s' =
       (Earlier.events s ++ [Earlier.createMessage fetchingTheme;
                             Earlier.deleteMessage fetchingTheme])%list)
  ∧ (∀ e s',
       Earlier.getTheme this fuel x s = Some (Earlier.Failed e, s') →
       Earlier.themesCache s' = Earlier.themesCache s
       ∧ Earlier.Guilds s' = Earlier.Guilds s ∧ Earlier.Rooms s' = Earlier.Rooms s
       ∧ Earlier.events s' = (Earlier.events s ++ [Earlier.createMessage fetchingTheme])%list).
Proof.
  rewrite getTheme_unfold.
  destruct (Game.chooseTheme _ _ _ _) as [[theme|e]|] eqn:E; split; try done.
  - intros t1 s' [= <- <-]. simpl. split_and!; try done.
    by destruct (chooseTheme_sound _ _ _ _ _ E) as (n & _ & _ & Hfresh & _).
  - intros e' s' [= <- <-]. done.
Qed.

(** X13. Earlier handler. When [getTheme] returns a theme, the link of
    that theme was not in the cache before the call and is in it
    afterwards, guilds and rooms are untouched, and the loading message was
    sent and deleted. When the theme source rejects, [getTheme] fails
    with the cache as it was and the loading message left in the channel. *)
Theorem getTheme_caches_fresh_theme this fuel x s :
  (∀ theme s',
     Earlier.getTheme this fuel x s = Some (Earlier.Done theme, s') →
     Earlier.themesCache s !! link theme = None
     ∧ Earlier.themesCache s' = <[link theme := Earlier.guildID this]> (Earlier.themesCache s)
     ∧ Earlier.Guilds s' = Earlier.Guilds s ∧ Earlier.Rooms s' = Earlier.Rooms s
     ∧ Earlier.events s' =
       (Earlier.events s ++ [Earlier.createMessage fetchingTheme;
                             Earlier.deleteMessage fetchingTheme])%list)
  ∧ (∀ e s',
       Earlier.getTheme this fuel x s = Some (Earlier.Failed e, s') →
       Earlier.themesCache s' = Earlier.themesCache s
       ∧ Earlier.Guilds s' = Earlier.Guilds s ∧ Earlier.Rooms s' = Earlier.Rooms s
       ∧ Earlier.events s' = (Earlier.events s ++ [Earlier.createMessage fetchingTheme])%list).
Proof. apply getTheme_settles. Qed.

Lemma getTheme_caches_fresh_theme_witness :
  (Earlier.themesCache earlierUsed !! link freshTheme = None
   ∧ Earlier.themesCache
       (Earlier.after (Earlier.getTheme (earlierGame 3) 3 (earlierInputs thirdTimeLucky None))
                      earlierUsed)
     = <[link freshTheme := "guild"]> (Earlier.themesCache earlierUsed))
  ∧ Earlier.themesCache
      (Earlier.after (Earlier.getTheme (earlierGame 3) 3 (earlierInputs unreachableSource None))
                     earlierUsed)
    = Earlier.themesCache earlierUsed.
Proof.
  split.
  - destruct (proj1 (getTheme_caches_fresh_theme (earlierGame 3) 3
                       (earlierInputs thirdTimeLucky None) earlierUsed)
                freshTheme
                (Earlier.after (Earlier.getTheme (earlierGame 3) 3
                                  (earlierInputs thirdTimeLucky None)) earlierUsed)
                eq_refl) as (H1 & H2 & _).
    split; [exact H1|exact H2].
  - destruct (proj2 (getTheme_caches_fresh_theme (earlierGame 3) 3
                       (earlierInputs unreachableSource None) earlierUsed)
                (Earlier.Fault_ (Rejected "unreachable"))
                (Earlier.after (Earlier.getTheme (earlierGame 3) 3
                                  (earlierInputs unreachableSource None)) earlierUsed)
                eq_refl) as (H1 & _).
    exact H1.
Defined.

(** X14. Earlier handler. As long as the cache is not emptied in between
    (it may have grown), a theme returned by a later [getTheme] never has
    the link of a theme returned by an earlier one, whatever the source
    offers. *)
Theorem getTheme_never_repeats this fuel1 fuel2 x1 x2 s1 s1' s2 s2' t1 t2 :
  Earlier.getTheme this fuel1 x1 s1 = Some (Earlier.Done t1, s1') →
  Earlier.themesCache s1' ⊆ Earlier.themesCache s2 →
  Earlier.getTheme this fuel2 x2 s2 = Some (Earlier.Done t2, s2') →
  link t1 ≠ link t2.
Proof.
  intros H1 Hsub H2 Heq.
  rewrite getTheme_unfold in H1, H2.
  destruct (Game.chooseTheme fuel1 _ _ _) as [[u1|e1]|] eqn:E1; try done.
  destruct (Game.chooseTheme fuel2 _ _ _) as [[u2|e2]|] eqn:E2; try done.
  injection H1 as -> <-. injection H2 as -> <-.
  destruct (chooseTheme_sound _ _ _ _ _ E2) as (n & _ & _ & Hfresh & _).
  simpl in Hsub.
  assert (Earlier.themesCache s2 !! link t1 = Some (Earlier.guildID this)) as Hin.
  { eapply lookup_weaken; [|exact Hsub]. apply lookup_insert_eq. }
  rewrite Heq in Hin. congruence.
Qed.

Lemma getTheme_never_repeats_witness :
  Earlier.getTheme (earlierGame 3) 3 (earlierInputs thirdTimeLucky None) earlierUsed
  = Some (Earlier.Done freshTheme,
          Earlier.after (Earlier.getTheme (earlierGame 3) 3 (earlierInputs thirdTimeLucky None))
                        earlierUsed)
  ∧ link freshTheme ≠ link otherTheme.
Proof.
  split; [reflexivity|].
  apply (getTheme_never_repeats (earlierGame 3) 3 3
           (earlierInputs thirdTimeLucky None) (earlierInputs freshThenOther None)
           earlierUsed
           (Earlier.after (Earlier.getTheme (earlierGame 3) 3 (earlierInputs thirdTimeLucky None))
                          earlierUsed)
           (Earlier.after (Earlier.getTheme (earlierGame 3) 3 (earlierInputs thirdTimeLucky None))
                          earlierUsed)
           (Earlier.after (Earlier.getTheme (earlierGame 3) 3 (earlierInputs freshThenOther None))
              (Earlier.after (Earlier.getTheme (earlierGame 3) 3
                                (earlierInputs thirdTimeLucky None)) earlierUsed))).
  - reflexivity.
  - reflexivity.
  - reflexivity.
Defined.

Lemma handleRoom_unfold' this answer s :
  Earlier.handleRoom this answer s =
  Some (Earlier.Done
          (Earlier.guildID this,
           match Earlier.Rooms s !! Earlier.guildID this with
           | None => Earlier.mkRoom [] answer (Earlier.channelID this) (Earlier.authorID this) [] 1
           | Some r => Earlier.mkRoom [] (Earlier.answer r) (Earlier.channel r)
                         (Earlier.startedBy r) (Earlier.leaderboard r)
                         (Earlier.currentRound r + 1)
           end),
        Earlier.mkState (Earlier.Guilds s)
          (<[Earlier.guildID this :=
               match Earlier.Rooms s !! Earlier.guildID this with
               | None => Earlier.mkRoom [] answer (Earlier.channelID this)
                           (Earlier.authorID this) [] 1
               | Some r => Earlier.mkRoom [] (Earlier.answer r) (Earlier.channel r)
                             (Earlier.startedBy r) (Earlier.leaderboard r)
                             (Earlier.currentRound r + 1)
               end]> (Earlier.Rooms s))
          (Earlier.themesCache s) (Earlier.events s)).
Proof.
  unfold Earlier.handleRoom, Earlier.createRoom. earlier.
  by destruct (Earlier.Rooms s !! Earlier.guildID this).
Qed.

Lemma afterRounds_existing this answers s r :
  Earlier.Rooms s !! Earlier.guildID this = Some r →
  afterRounds this answers s =
  Earlier.mkState (Earlier.Guilds s)
    (<[Earlier.guildID this :=
         Earlier.mkRoom (match answers with [] => Earlier.answerers r | _ => [] end)
           (Earlier.answer r) (Earlier.channel r) (Earlier.startedBy r) (Earlier.leaderboard r)
           (Earlier.currentRound r + Z.of_nat (length answers))]> (Earlier.Rooms s))
    (Earlier.themesCache s) (Earlier.events s).
Proof.
  revert s r. induction answers as [|a answers IH]; intros s r Hr.
  - simpl. rewrite Z.add_0_r. destruct s as [G R C E]. simpl in *. f_equal.
    symmetry. apply insert_id. by destruct r.
  - change (afterRounds this (a :: answers) s)
      with (afterRounds this answers (Earlier.after (Earlier.handleRoom this a) s)).
    unfold Earlier.after at 1. rewrite handleRoom_unfold', Hr.
    erewrite IH by (simpl; apply lookup_insert_eq). simpl.
    f_equal. rewrite insert_insert_eq. f_equal. f_equal; [by destruct answers|lia].
Qed.

(** X15. Earlier handler. Starting without a room for the guild,
    [handleRoom] run once per round leaves exactly one room for the guild:
    its [currentRound] is the number of rounds, its answerers are empty, and
    its stored answer is still the one of the first round; the later
    answers are not stored. Other rooms, guilds and the cache are
    untouched. *)
Theorem handleRoom_counts_rounds this first later s :
  Earlier.Rooms s !! Earlier.guildID this = None →
  afterRounds this (first :: later) s =
  Earlier.mkState (Earlier.Guilds s)
    (<[Earlier.guildID this :=
         Earlier.mkRoom [] first (Earlier.channelID this) (Earlier.authorID this) []
                        (1 + Z.of_nat (length later))]> (Earlier.Rooms s))
    (Earlier.themesCache s) (Earlier.events s).
Proof.
  intros Hnone.
  change (afterRounds this (first :: later) s)
    with (afterRounds this later (Earlier.after (Earlier.handleRoom this first) s)).
  unfold Earlier.after at 1. rewrite handleRoom_unfold', Hnone.
  erewrite afterRounds_existing by (simpl; apply lookup_insert_eq). simpl.
  f_equal. rewrite insert_insert_eq. f_equal. f_equal. by destruct later.
Qed.

Lemma handleRoom_counts_rounds_witness :
  afterRounds (earlierGame 3) ["Used"; "Fresh"; "Third"] earlierIdle =
  Earlier.mkState (Earlier.Guilds earlierIdle)
    (<["guild" := Earlier.mkRoom [] "Used" "channel" "author" [] (1 + Z.of_nat 2)]>
       (Earlier.Rooms earlierIdle))
    (Earlier.themesCache earlierIdle) (Earlier.events earlierIdle).
Proof.
  apply (handleRoom_counts_rounds (earlierGame 3) "Used" ["Fresh"; "Third"] earlierIdle).
  reflexivity.
Defined.

(** X16. Earlier handler. When the requester is in a voice channel, the
    theme is selected and its stream cannot be resolved, [startNewRound]
    throws [StreamError] having written neither guild nor room: [rolling]
    is not set and no room is created or advanced. Both loading messages
    were sent and deleted, and the theme stays in the cache. *)
Theorem earlier_stream_failure_persists_nothing this fuel x guild voiceChannel theme s1 s :
  Earlier.voiceStateChannelID this = Some voiceChannel →
  Earlier.getTheme this fuel x s = Some (Earlier.Done theme, s1) →
  Earlier.streamLookup x = None →
  ∃ s',
    Earlier.startNewRound this fuel x guild s = Some (Earlier.Failed Earlier.StreamError, s')
    ∧ Earlier.Guilds s' = Earlier.Guilds s
    ∧ Earlier.Rooms s' = Earlier.Rooms s
    ∧ Earlier.themesCache s' = <[link theme := Earlier.guildID this]> (Earlier.themesCache s)
    ∧ Earlier.events s' =
      (Earlier.events s ++
         [Earlier.createMessage fetchingTheme; Earlier.deleteMessage fetchingTheme;
          Earlier.createMessage fetchingStream; Earlier.deleteMessage fetchingStream])%list.
Proof.
  intros Hv Ht Hs.
  destruct (proj1 (getTheme_settles this fuel x s) theme s1 Ht)
    as (_ & C & G & R & E).
  eexists. split.
  - unfold Earlier.startNewRound. rewrite Hv. unfold Earlier.bind at 1. rewrite Ht, Hs.
    earlier. reflexivity.
  - simpl. rewrite G, R, C, E. split_and!; try done.
    unfold fetchingStream. by rewrite <- !app_assoc.
Qed.

Lemma earlier_reveal this fuel next c s :
  Earlier.answerCollectorEnd this fuel next c s =
  (if bool_decide (rounds (Earlier.gameOptions this)
                   <= Earlier.currentRound (snd (Earlier.ctx_room c)))
   then
     Some (Earlier.Done Earlier.Finished,
           Earlier.mkState
             (<[fst (Earlier.ctx_guild c) :=
                  mkGuild (prefix (snd (Earlier.ctx_guild c))) false]> (Earlier.Guilds s))
             (delete (fst (Earlier.ctx_room c)) (Earlier.Rooms s))
             ∅
             (Earlier.events s ++ earlierReveal c ++
                [Earlier.leaveVoiceChannel (Some (Earlier.ctx_voiceChannel c));
                 Earlier.createMessage (Earlier.Plain "Match ended.")]))
   else
     match Earlier.startNewRound this fuel next (Earlier.ctx_guild c)
             (earlierLogged (earlierReveal c) s) with
     | Some (Earlier.Failed e, s') => Some (Earlier.Failed (Earlier.ErrorOf e), s')
     | Some (Earlier.Done r, s') => Some (Earlier.Done (Earlier.NextRound r), s')
     | None => None
     end).
Proof.
  unfold Earlier.answerCollectorEnd, Earlier.clearData, earlierReveal, earlierLogged. earlier.
  assert ((if bool_decide (0 < length (Earlier.answerers (Earlier.ctx_room c).2))%nat
           then mentions (Earlier.answerers (Earlier.ctx_room c).2) else "Nobody")
          = match Earlier.answerers (Earlier.ctx_room c).2 with
            | [] => "Nobody"
            | ids => mentions ids
            end) as ->.
  { by destruct (Earlier.answerers (Earlier.ctx_room c).2). }
  destruct (bool_decide _); simpl; rewrite <- !app_assoc; reflexivity.
Qed.

Lemma earlier_stream_failure_persists_nothing_witness :
  ∃ s',
    Earlier.startNewRound (earlierGame 3) 3 (earlierInputs thirdTimeLucky None)
                          ("guild", mkGuild "!" false) earlierIdle
    = Some (Earlier.Failed Earlier.StreamError, s')
    ∧ Earlier.Guilds s' = Earlier.Guilds earlierIdle
    ∧ Earlier.Rooms s' = Earlier.Rooms earlierIdle
    ∧ Earlier.themesCache s' = <[link usedTheme := "guild"]> (Earlier.themesCache earlierIdle)
    ∧ Earlier.events s' =
      (Earlier.events earlierIdle ++
         [Earlier.createMessage fetchingTheme; Earlier.deleteMessage fetchingTheme;
          Earlier.createMessage fetchingStream; Earlier.deleteMessage fetchingStream])%list.
Proof.
  apply (earlier_stream_failure_persists_nothing (earlierGame 3) 3
           (earlierInputs thirdTimeLucky None) ("guild", mkGuild "!" false) "voice" usedTheme
           (Earlier.after (Earlier.getTheme (earlierGame 3) 3 (earlierInputs thirdTimeLucky None))
                          earlierIdle)
           earlierIdle).
  - reflexivity.
  - reflexivity.
  - reflexivity.
Defined.

(** X17. Earlier handler. When the collector of the last round ends, the
    listener names the correct users (or "Nobody"), reveals the answer,
    saves the guild with [rolling] false, deletes the room, empties the
    theme cache, leaves the voice channel and announces the end of the
    match. Since the cache is empty, the first theme the source offers to
    the next [getTheme] is accepted, even one played in the match that
    ended. *)
Theorem earlier_match_end_frees_themes this fuel next c s :
  rounds (Earlier.gameOptions this) <= Earlier.currentRound (snd (Earlier.ctx_room c)) →
  ∃ s',
    Earlier.answerCollectorEnd this fuel next c s = Some (Earlier.Done Earlier.Finished, s')
    ∧ Earlier.Rooms s' = delete (fst (Earlier.ctx_room c)) (Earlier.Rooms s)
    ∧ Earlier.Guilds s' =
      <[fst (Earlier.ctx_guild c) := mkGuild (prefix (snd (Earlier.ctx_guild c))) false]>
        (Earlier.Guilds s)
    ∧ Earlier.themesCache s' = ∅
    ∧ Earlier.events s' =
      (Earlier.events s ++ earlierReveal c ++
         [Earlier.leaveVoiceChannel (Some (Earlier.ctx_voiceChannel c));
          Earlier.createMessage (Earlier.Plain "Match ended.")])%list
    ∧ ∀ that x theme fuel',
        Earlier.getThemeByMode x 0%nat = Returned (Some theme) →
        ∃ s'', Earlier.getTheme that (S fuel') x s' = Some (Earlier.Done theme, s'').
Proof.
  intros Hlast. eexists. split.
  - rewrite earlier_reveal. by rewrite bool_decide_true.
  - simpl. split_and!; try done.
    intros that x theme fuel' Hsrc. rewrite getTheme_unfold. simpl. rewrite Hsrc.
    rewrite lookup_empty. rewrite bool_decide_false by (by intros []). eauto.
Qed.

Lemma earlier_match_end_frees_themes_witness :
  ∃ s',
    Earlier.answerCollectorEnd (earlierGame 3) 3 (earlierInputs degenerateSource None)
                               (earlierContext 3) (earlierRunning 3)
    = Some (Earlier.Done Earlier.Finished, s')
    ∧ Earlier.Rooms s' = delete "guild" (Earlier.Rooms (earlierRunning 3))
    ∧ Earlier.Guilds s' = <["guild" := mkGuild "!" false]> (Earlier.Guilds (earlierRunning 3))
    ∧ Earlier.themesCache s' = ∅
    ∧ Earlier.events s' =
      (Earlier.events (earlierRunning 3) ++ earlierReveal (earlierContext 3) ++
         [Earlier.leaveVoiceChannel (Some "voice");
          Earlier.createMessage (Earlier.Plain "Match ended.")])%list
    ∧ ∀ that x theme fuel',
        Earlier.getThemeByMode x 0%nat = Returned (Some theme) →
        ∃ s'', Earlier.getTheme that (S fuel') x s' = Some (Earlier.Done theme, s'').
Proof.
  apply (earlier_match_end_frees_themes (earlierGame 3) 3 (earlierInputs degenerateSource None)
           (earlierContext 3) (earlierRunning 3)).
  simpl. lia.
Defined.

(** X18. Earlier handler. When the collector of a round other than the
    last ends and the stream of the next theme cannot be resolved, the
    listener throws a new error made from [StreamError]: no error message
    is sent to the channel, and guild and room stay as they were, the guild
    still [rolling]. *)
Theorem earlier_round_end_throws_on_stream_failure this fuel next c voiceChannel theme s1 s :
  Earlier.currentRound (snd (Earlier.ctx_room c)) < rounds (Earlier.gameOptions this) →
  Earlier.voiceStateChannelID this = Some voiceChannel →
  Earlier.getTheme this fuel next (earlierLogged (earlierReveal c) s)
  = Some (Earlier.Done theme, s1) →
  Earlier.streamLookup next = None →
  ∃ s',
    Earlier.answerCollectorEnd this fuel next c s
    = Some (Earlier.Failed (Earlier.ErrorOf Earlier.StreamError), s')
    ∧ Earlier.Guilds s' = Earlier.Guilds s
    ∧ Earlier.Rooms s' = Earlier.Rooms s
    ∧ Earlier.events s' =
      (Earlier.events s ++ earlierReveal c ++
         [Earlier.createMessage fetchingTheme; Earlier.deleteMessage fetchingTheme;
          Earlier.createMessage fetchingStream; Earlier.deleteMessage fetchingStream])%list.
Proof.
  intros Hmore Hv Ht Hs.
  destruct (proj1 (getTheme_settles this fuel next _) theme s1 Ht) as (_ & C & G & R & E).
  assert (Earlier.startNewRound this fuel next (Earlier.ctx_guild c)
            (earlierLogged (earlierReveal c) s) =
          Some (Earlier.Failed Earlier.StreamError,
                earlierLogged [Earlier.createMessage fetchingStream;
                               Earlier.deleteMessage fetchingStream] s1)) as Es.
  { unfold Earlier.startNewRound. rewrite Hv. unfold Earlier.bind at 1. rewrite Ht, Hs.
    earlier. unfold earlierLogged, fetchingStream. by rewrite <- !app_assoc. }
  eexists. split.
  - rewrite earlier_reveal. rewrite bool_decide_false by lia. by rewrite Es.
  - simpl. rewrite G, R, E. simpl. split_and!; try done. by rewrite <- !app_assoc.
Qed.

Lemma earlier_round_end_throws_on_stream_failure_witness :
  ∃ s',
    Earlier.answerCollectorEnd (earlierGame 3) 3 (earlierInputs thirdTimeLucky None)
                               (earlierContext 2) (earlierRunning 2)
    = Some (Earlier.Failed (Earlier.ErrorOf Earlier.StreamError), s')
    ∧ Earlier.Guilds s' = Earlier.Guilds (earlierRunning 2)
    ∧ Earlier.Rooms s' = Earlier.Rooms (earlierRunning 2)
    ∧ Earlier.events s' =
      (Earlier.events (earlierRunning 2) ++ earlierReveal (earlierContext 2) ++
         [Earlier.createMessage fetchingTheme; Earlier.deleteMessage fetchingTheme;
          Earlier.createMessage fetchingStream; Earlier.deleteMessage fetchingStream])%list.
Proof.
  apply (earlier_round_end_throws_on_stream_failure (earlierGame 3) 3
           (earlierInputs thirdTimeLucky None) (earlierContext 2) "voice" freshTheme
           (Earlier.after (Earlier.getTheme (earlierGame 3) 3 (earlierInputs thirdTimeLucky None))
              (earlierLogged (earlierReveal (earlierContext 2)) (earlierRunning 2)))
           (earlierRunning 2)).
  - simpl. lia.
  - reflexivity.
  - reflexivity.
  - reflexivity.
Defined.

(** X19. Earlier handler. [init], the guild's document being read: for a
    guild without a document it does nothing, and a failure of the round
    start is sent to the channel as the default error message, after what
    the round start had done. *)
Theorem earlier_init_reports_failures this fuel x s :
  (Earlier.Guilds s !! Earlier.guildID this = None →
   Earlier.init this fuel x s = Some (Earlier.Done None, s))
  ∧ (∀ g e s',
       Earlier.Guilds s !! Earlier.guildID this = Some g →
       Earlier.startNewRound this fuel x (Earlier.guildID this, g) s
       = Some (Earlier.Failed e, s') →
       Earlier.init this fuel x s =
       Some (Earlier.Done None,
             earlierLogged [Earlier.createMessage (Earlier.DefaultError e)] s')).
Proof.
  unfold Earlier.init. earlier.
  destruct (Earlier.Guilds s !! Earlier.guildID this) as [g|]; simpl.
  - split; [done|]. intros ? e s' [= <-] ->. reflexivity.
  - split; done.
Qed.

Lemma earlier_init_reports_failures_witness :
  Earlier.init (earlierGame 3) 3 (earlierInputs thirdTimeLucky None)
               (Earlier.mkState ∅ ∅ ∅ [])
  = Some (Earlier.Done None, Earlier.mkState ∅ ∅ ∅ [])
  ∧ Earlier.init (earlierGame 3) 3 (earlierInputs thirdTimeLucky None) earlierIdle =
    Some (Earlier.Done None,
          earlierLogged [Earlier.createMessage (Earlier.DefaultError Earlier.StreamError)]
            (Earlier.after (Earlier.startNewRound (earlierGame 3) 3
                              (earlierInputs thirdTimeLucky None) ("guild", mkGuild "!" false))
                           earlierIdle)).
Proof.
  split.
  - apply (proj1 (earlier_init_reports_failures (earlierGame 3) 3
                    (earlierInputs thirdTimeLucky None) (Earlier.mkState ∅ ∅ ∅ []))).
    reflexivity.
  - apply (proj2 (earlier_init_reports_failures (earlierGame 3) 3
                    (earlierInputs thirdTimeLucky None) earlierIdle)
             (mkGuild "!" false) Earlier.StreamError).
    + reflexivity.
    + reflexivity.
Defined.
